(** * Product review sentiment analyser: a shallow embedding

    Source: [sentiment_analyzer.py] (class [SimpleSentimentAnalyzer],
    functions [analyze_reviews] and [generate_insights]).

    Modelling conventions.
    - A Python [str] is a [list ascii]; a character is a code point in
      U+0000..U+00FF.  [str.lower], [str.split], [str.strip] and the
      regular expression class [\s] are written out for that range.
    - A Python [float] is an exact rational ([Q]): [/] on two integers is
      the exact quotient, the literal [0.1] is [1/10], and [round(x, nd)]
      rounds the exact value half-to-even at [nd] decimals.  Binary64
      rounding error is outside the model: where the exact value is a tie
      that binary64 does not hold exactly (as in [round(1/80, 3)]), Python
      may keep the other neighbour.  No property below depends on which
      neighbour [round] keeps.
    - [csv.DictReader], [json.dump], [print], [float] on a string and
      [collections.Counter] are library code: the reader is the input of
      the run, the writer and the console are events in the outcome of the
      run, [float] is a parameter of the run, and [Counter] is written out
      from its documented behaviour. *)

From Stdlib Require Import Ascii String Bool Arith ZArith QArith Qabs Lia Lqa.
From Stdlib Require Import List Sorted Permutation.
Import ListNotations.

(** ** Strings *)

Module Str.

Definition str := list ascii.

(** A string literal as a [str]. *)
Definition lit (s : string) : str := list_ascii_of_string s.

Definition code (c : ascii) : N := N_of_ascii c.

(** [Py_UNICODE_ISSPACE] on U+0000..U+00FF: TAB..CR, FS..US, SPACE,
    NEL and NBSP.  [str.split()], [str.strip()] and [\s] all use it. *)
Definition isspace (c : ascii) : bool :=
  let n := code c in
  (((9 <=? n) && (n <=? 13)) || ((28 <=? n) && (n <=? 32))
   || (n =? 133) || (n =? 160))%N.

Definition is_upper (c : ascii) : bool :=
  let n := code c in ((65 <=? n) && (n <=? 90))%N.

Definition is_lower (c : ascii) : bool :=
  let n := code c in ((97 <=? n) && (n <=? 122))%N.

(** The class [a-zA-Z]. *)
Definition is_alpha (c : ascii) : bool := is_lower c || is_upper c.

(** [str.lower()] on one code point of U+0000..U+00FF: A..Z and the
    Latin-1 capitals U+00C0..U+00DE (but not the multiplication sign
    U+00D7) move up by 32. *)
Definition lower_char (c : ascii) : ascii :=
  let n := code c in
  if is_upper c || ((192 <=? n) && (n <=? 222) && negb (n =? 215))%N
  then ascii_of_N (n + 32) else c.

Definition lower (s : str) : str := map lower_char s.

Definition space : ascii := " "%char.

(** [s.split()]: the maximal runs of non-whitespace characters. *)
Fixpoint split (s : str) : list str :=
  match s with
  | [] => []
  | c :: s' =>
      if isspace c then split s'
      else match s' with
           | [] => [[c]]
           | d :: _ =>
               if isspace d then [c] :: split s'
               else match split s' with
                    | w :: ws => (c :: w) :: ws
                    | [] => [[c]]
                    end
           end
  end.

(** [sep.join(ws)]. *)
Fixpoint join (sep : str) (ws : list str) : str :=
  match ws with
  | [] => []
  | w :: ws' =>
      match ws' with
      | [] => w
      | _ :: _ => w ++ sep ++ join sep ws'
      end
  end.

Fixpoint lstrip (s : str) : str :=
  match s with
  | c :: s' => if isspace c then lstrip s' else s
  | [] => []
  end.

Definition rstrip (s : str) : str := rev (lstrip (rev s)).

(** [s.strip()]. *)
Definition strip (s : str) : str := rstrip (lstrip s).

(** [s[:n]]. *)
Definition prefix (n : nat) (s : str) : str := firstn n s.

Definition eqb (a b : str) : bool :=
  if list_eq_dec ascii_dec a b then true else false.

(** [w in words] for a set of strings. *)
Definition mem (w : str) (words : list str) : bool := existsb (eqb w) words.

(** Truth value of a string: non-empty. *)
Definition truthy (s : str) : bool :=
  match s with [] => false | _ :: _ => true end.

End Str.

Import Str.

(** ** The analyser class *)

Module SimpleSentimentAnalyzer.

Definition positive_words : list str := map lit
  [ "amazing"; "excellent"; "fantastic"; "great"; "wonderful"; "awesome";
    "perfect"; "love"; "best"; "good"; "nice"; "beautiful"; "outstanding";
    "brilliant"; "superb"; "magnificent"; "incredible"; "marvelous";
    "exceptional"; "impressive"; "delightful"; "pleased"; "satisfied";
    "happy"; "recommend"; "quality"; "fast"; "quick"; "easy"; "comfortable"
  ]%string.

Definition negative_words : list str := map lit
  [ "terrible"; "awful"; "horrible"; "bad"; "worst"; "hate"; "disappointing";
    "useless"; "waste"; "poor"; "cheap"; "broken"; "defective"; "slow";
    "difficult"; "hard"; "uncomfortable"; "annoying"; "frustrating";
    "expensive"; "overpriced"; "fake"; "fraud"; "scam"; "regret";
    "return"; "refund"; "complaint"; "problem"; "issue"; "fail"
  ]%string.

(** [re.sub(r'[^a-zA-Z\s]', '', t)]: delete what is neither a letter nor
    whitespace. *)
Definition strip_special (t : str) : str :=
  filter (fun c => is_alpha c || isspace c) t.

(** [clean_text(text)]; [None] is the Python [None]. *)
Definition clean_text (text : option str) : str :=
  match text with
  | None => []
  | Some [] => []
  | Some t =>
      let text1 := strip_special (lower t) in
      join [space] (split text1)
  end.

End SimpleSentimentAnalyzer.

(** ** Numbers *)

Module Num.

(** [len(l)]. *)
Definition len {A : Type} (l : list A) : Z := Z.of_nat (length l).

(** [sum(...)] over integers. *)
Definition sum (l : list Z) : Z := fold_left Z.add l 0%Z.

(** [sum(...)] over floats. *)
Definition fsum (l : list Q) : Q := fold_left Qplus l 0%Q.

(** [a / b] on two integers; every call site guards [b <> 0]. *)
Definition truediv (a b : Z) : Q := inject_Z a / inject_Z b.

Definition Qlt_bool (a b : Q) : bool := negb (Qle_bool b a).

(** Nearest integer, ties to the even one. *)
Definition round_half_even (x : Q) : Z :=
  let n := Qnum x in
  let d := Zpos (Qden x) in
  let q := (n / d)%Z in
  let r := (n mod d)%Z in
  match (2 * r ?= d)%Z with
  | Lt => q
  | Gt => (q + 1)%Z
  | Eq => if Z.even q then q else (q + 1)%Z
  end.

(** [round(x, nd)]. *)
Definition round (x : Q) (nd : nat) : Q :=
  let scale := inject_Z (10 ^ Z.of_nat nd) in
  Qred (inject_Z (round_half_even (x * scale)) / scale).

End Num.

Import Num.

(** ** Sentiment scoring *)

Inductive label := positive | negative | neutral.

Module Scorer.

Import SimpleSentimentAnalyzer.

(** [sum(1 for word in words if word in lexicon)]. *)
Definition count_in (lexicon : list str) (words : list str) : Z :=
  sum (map (fun _ => 1%Z) (filter (fun word => mem word lexicon) words)).

(** [calculate_sentiment(text)]. *)
Definition calculate_sentiment (text : str) : Q * Q * label :=
  let clean := clean_text (Some text) in
  let words := split clean in
  match words with
  | [] => (0, 0, neutral)
  | _ :: _ =>
      let positive_count := count_in positive_words words in
      let negative_count := count_in negative_words words in
      let total_sentiment_words := (positive_count + negative_count)%Z in
      let polarity :=
        if (total_sentiment_words =? 0)%Z then 0
        else truediv (positive_count - negative_count) (len words) in
      let subjectivity := truediv total_sentiment_words (len words) in
      let sentiment :=
        if Qlt_bool (1 # 10) polarity then positive
        else if Qlt_bool polarity (- (1 # 10)) then negative
        else neutral in
      (polarity, subjectivity, sentiment)
  end.

End Scorer.

Import SimpleSentimentAnalyzer Scorer.

(** ** Rows, results and reports *)

(** A value that [float] produced for a rating. *)
Inductive pyfloat := Finite (q : Q) | Infinite (negative_sign : bool) | NaN.

(** What [review.get(key, default)] finds under [key] in a row of
    [csv.DictReader]: nothing (the header has no such column), [None] (the
    row is shorter than the header) or a string. *)
Inductive cell := Absent | Null | Field (s : str).

Record row := {
  Review_ID : cell;
  Review_Text : cell;
  Rating : cell;
  Product_Category : cell;
  Verified_Purchase : cell
}.

(** [review.get(key, default)] for a string default; [None] is [None]. *)
Definition get (c : cell) (default : str) : option str :=
  match c with
  | Absent => Some default
  | Null => None
  | Field s => Some s
  end.

Inductive exn :=
| FileNotFoundError
| AttributeError
| TypeError
| ValueError (arg : str)
| OtherError (msg : str).

Record review_result := {
  review_id : option str;
  review_text : str;
  rating : pyfloat;
  sentiment : label;
  polarity : Q;
  subjectivity : Q;
  category : option str;
  verified : bool
}.

Record distribution := {
  n_positive : Z;
  n_negative : Z;
  n_neutral : Z
}.

(** [dist[sentiment] += 1]. *)
Definition bump (d : distribution) (s : label) : distribution :=
  match s with
  | positive => {| n_positive := n_positive d + 1; n_negative := n_negative d;
                   n_neutral := n_neutral d |}
  | negative => {| n_positive := n_positive d; n_negative := n_negative d + 1;
                   n_neutral := n_neutral d |}
  | neutral => {| n_positive := n_positive d; n_negative := n_negative d;
                  n_neutral := n_neutral d + 1 |}
  end.

(** [dist[sentiment]]. *)
Definition count_of (d : distribution) (s : label) : Z :=
  match s with
  | positive => n_positive d
  | negative => n_negative d
  | neutral => n_neutral d
  end.

Inductive trend := HighlyPositive | ModeratelyPositive | Mixed | Negative.

Record snapshot := {
  text : str;
  snapshot_polarity : Q
}.

Record insights_t := {
  positive_percentage : Q;
  negative_percentage : Q;
  neutral_percentage : Q;
  overall_trend : trend;
  most_positive_review : option snapshot;
  most_negative_review : option snapshot
}.

Record word_analysis_t := {
  most_common : list (str * Z);
  total_unique_words : Z
}.

(** The [results] dictionary; [insights = None] is the empty dictionary. *)
Record results_t := {
  total_reviews : Z;
  sentiment_distribution : distribution;
  average_polarity : Q;
  average_subjectivity : Q;
  satisfaction_score : Q;
  reviews : list review_result;
  insights : option insights_t;
  word_analysis : word_analysis_t
}.

(** ** [collections.Counter] *)

Module Counter.

(** A counter keeps its keys in the order of their first insertion. *)
Definition t := list (str * Z).

(** [c[w] += 1]. *)
Fixpoint add (w : str) (c : t) : t :=
  match c with
  | [] => [(w, 1%Z)]
  | (k, n) :: c' =>
      if Str.eqb k w then (k, (n + 1)%Z) :: c' else (k, n) :: add w c'
  end.

(** [Counter(words)]. *)
Definition Counter (words : list str) : t :=
  fold_left (fun c w => add w c) words [].

(** [c[w]]: the count of [w], 0 for a word that is not a key. *)
Fixpoint count (c : t) (w : str) : Z :=
  match c with
  | [] => 0%Z
  | (k, n) :: c' => if Str.eqb k w then n else count c' w
  end.

(** [c.keys()], in insertion order. *)
Definition keys (c : t) : list str := map fst c.

(** Insertion in front of the first entry that does not count more. *)
Fixpoint insert (x : str * Z) (l : t) : t :=
  match l with
  | [] => [x]
  | y :: l' => if (snd x <? snd y)%Z then y :: insert x l' else x :: l
  end.

(** [sorted(c.items(), key=itemgetter(1), reverse=True)]: a stable sort
    on decreasing counts. *)
Definition sorted_desc (c : t) : t := fold_right insert [] c.

(** [c.most_common(n)], documented as [sorted(...)[:n]]. *)
Definition most_common_n (n : nat) (c : t) : t := firstn n (sorted_desc c).

End Counter.

(** ** Insights *)

Module Insights.

(** [max(l, key=key)]: the running best is replaced on a strictly
    greater key only. *)
Fixpoint max_from {A : Type} (key : A -> Q) (best : A) (l : list A) : A :=
  match l with
  | [] => best
  | x :: l' =>
      if Qlt_bool (key best) (key x) then max_from key x l'
      else max_from key best l'
  end.

(** [min(l, key=key)]. *)
Fixpoint min_from {A : Type} (key : A -> Q) (best : A) (l : list A) : A :=
  match l with
  | [] => best
  | x :: l' =>
      if Qlt_bool (key x) (key best) then min_from key x l'
      else min_from key best l'
  end.

Definition max_by {A : Type} (key : A -> Q) (l : list A) : option A :=
  match l with
  | [] => None
  | x :: l' => Some (max_from key x l')
  end.

Definition min_by {A : Type} (key : A -> Q) (l : list A) : option A :=
  match l with
  | [] => None
  | x :: l' => Some (min_from key x l')
  end.

Definition ellipsis : str := lit "...".

(** [{'text': r['review_text'][:100] + '...', 'polarity': r['polarity']}]. *)
Definition snapshot_of (r : review_result) : snapshot :=
  {| text := prefix 100 (review_text r) ++ ellipsis;
     snapshot_polarity := polarity r |}.

Definition trend_of (score : Q) : trend :=
  if Qle_bool 70 score then HighlyPositive
  else if Qle_bool 50 score then ModeratelyPositive
  else if Qle_bool 30 score then Mixed
  else Negative.

(** [round((count / total) * 100, 1)]. *)
Definition percentage (count total : Z) : Q :=
  round (truediv count total * 100) 1.

(** [generate_insights(results)]; the result is the dictionary [insights],
    [None] when it is left empty. *)
Definition generate_insights (results : results_t) : option insights_t :=
  let total := total_reviews results in
  if (total =? 0)%Z then None
  else
    let percentage_of sentiment :=
      percentage (count_of (sentiment_distribution results) sentiment) total in
    Some {| positive_percentage := percentage_of positive;
            negative_percentage := percentage_of negative;
            neutral_percentage := percentage_of neutral;
            overall_trend := trend_of (satisfaction_score results);
            most_positive_review :=
              option_map snapshot_of (max_by polarity (reviews results));
            most_negative_review :=
              option_map snapshot_of (min_by polarity (reviews results)) |}.

(** [results['insights'] = insights]. *)
Definition set_insights (results : results_t) (i : option insights_t)
    : results_t :=
  {| total_reviews := total_reviews results;
     sentiment_distribution := sentiment_distribution results;
     average_polarity := average_polarity results;
     average_subjectivity := average_subjectivity results;
     satisfaction_score := satisfaction_score results;
     reviews := reviews results;
     insights := i;
     word_analysis := word_analysis results |}.

End Insights.

(** ** The run *)

Module Run.

Import Insights.

(** The accumulators of the loop over the rows. *)
Record acc := {
  acc_reviews : list review_result;
  acc_distribution : distribution;
  polarities : list Q;
  subjectivities : list Q;
  all_words : list str
}.

Definition acc0 : acc :=
  {| acc_reviews := [];
     acc_distribution := {| n_positive := 0; n_negative := 0; n_neutral := 0 |};
     polarities := [];
     subjectivities := [];
     all_words := [] |}.

(** What the console shows. *)
Inductive message :=
| Starting
| Processing (n : Z)
| Completed
| ShowResults (d : distribution)
| ShowScore (score : Q)
| ErrorFileNotFound
| ErrorDuringAnalysis (e : exn).

(** What a run leaves behind: the console lines, the reports handed to
    [json.dump] for [analysis_results.json], and the returned value
    ([None] is [None]). *)
Record outcome := {
  console : list message;
  written : list results_t;
  returned : option results_t
}.

Section WithFloat.

(** [float(s)] on a string: the value, or [None] for [ValueError]. *)
Variable float_of_str : str -> option pyfloat.

(** [float(review.get('Rating', 0))]. *)
Definition rating_of (c : cell) : exn + pyfloat :=
  match c with
  | Absent => inr (Finite 0)
  | Null => inl TypeError
  | Field s =>
      match float_of_str s with
      | Some f => inr f
      | None => inl (ValueError s)
      end
  end.

(** One turn of [for review in reviews_data]. *)
Definition step (a : acc) (review : row) : exn + acc :=
  match get (Review_Text review) [] with
  | None => inl AttributeError
  | Some review_text =>
      if negb (truthy (strip review_text)) then inr a
      else
        let '(polarity, subjectivity, sentiment) :=
          calculate_sentiment review_text in
        match rating_of (Rating review) with
        | inl e => inl e
        | inr rating =>
            let review_result :=
              {| review_id := get (Review_ID review) [];
                 review_text := review_text;
                 rating := rating;
                 sentiment := sentiment;
                 polarity := round polarity 3;
                 subjectivity := round subjectivity 3;
                 category := get (Product_Category review) (lit "Unknown");
                 verified :=
                   match get (Verified_Purchase review) (lit "No") with
                   | Some v => Str.eqb v (lit "Yes")
                   | None => false
                   end |} in
            let clean_words := split (clean_text (Some review_text)) in
            inr {| acc_reviews := acc_reviews a ++ [review_result];
                   acc_distribution := bump (acc_distribution a) sentiment;
                   polarities := polarities a ++ [polarity];
                   subjectivities := subjectivities a ++ [subjectivity];
                   all_words :=
                     all_words a
                     ++ filter (fun word => (3 <? len word)%Z) clean_words |}
        end
  end.

Fixpoint loop (a : acc) (reviews_data : list row) : exn + acc :=
  match reviews_data with
  | [] => inr a
  | review :: rest =>
      match step a review with
      | inl e => inl e
      | inr a' => loop a' rest
      end
  end.

(** The statistics computed after the loop. *)
Definition finish (a : acc) : results_t :=
  let total := len (acc_reviews a) in
  let dist := acc_distribution a in
  let '(average_pol, average_sub, score) :=
    if (0 <? total)%Z
    then
      let positive_ratio := truediv (count_of dist positive) total in
      let negative_ratio := truediv (count_of dist negative) total in
      (round (fsum (polarities a) / inject_Z (len (polarities a))) 3,
       round (fsum (subjectivities a) / inject_Z (len (subjectivities a))) 3,
       round ((positive_ratio - negative_ratio + 1) * 50) 1)
    else (0, 0, 0) in
  let word_freq := Counter.Counter (all_words a) in
  let results :=
    {| total_reviews := total;
       sentiment_distribution := dist;
       average_polarity := average_pol;
       average_subjectivity := average_sub;
       satisfaction_score := score;
       reviews := acc_reviews a;
       insights := None;
       word_analysis :=
         {| most_common := Counter.most_common_n 10 word_freq;
            total_unique_words := len word_freq |} |} in
  set_insights results (generate_insights results).

(** The body of the [try] block from the rows on, up to the report. *)
Definition analyze (reviews_data : list row) : exn + results_t :=
  match loop acc0 reviews_data with
  | inl e => inl e
  | inr a => inr (finish a)
  end.

(** The two [except] clauses: a line on the console and [return None];
    what was written before the exception stays written. *)
Definition handler (printed : list message) (dumped : list results_t)
    (e : exn) : outcome :=
  match e with
  | FileNotFoundError =>
      {| console := printed ++ [ErrorFileNotFound];
         written := dumped; returned := None |}
  | _ =>
      {| console := printed ++ [ErrorDuringAnalysis e];
         written := dumped; returned := None |}
  end.

(** [analyze_reviews()]; [source] is what opening and reading
    [sample_reviews.csv] gives: an exception or the rows. *)
Definition analyze_reviews (source : exn + list row) : outcome :=
  match source with
  | inl e => handler [Starting] [] e
  | inr reviews_data =>
      let printed := [Starting; Processing (len reviews_data)] in
      match analyze reviews_data with
      | inl e => handler printed [] e
      | inr results =>
          {| console :=
               printed
               ++ [Completed;
                   ShowResults (sentiment_distribution results);
                   ShowScore (satisfaction_score results)];
             written := [results];
             returned := Some results |}
      end
  end.

End WithFloat.

End Run.

(** ** Vocabulary of the specification *)

Module Spec.

Import Insights Run.

(** A token: a non-empty run of non-whitespace characters. *)
Definition token (w : str) : Prop :=
  w <> [] /\ Forall (fun c => isspace c = false) w.

Definition only_lower_and_space (s : str) : Prop :=
  Forall (fun c => is_lower c = true \/ c = space) s.

Definition no_leading_space (s : str) : Prop :=
  forall c rest, s = c :: rest -> isspace c = false.

Definition no_trailing_space (s : str) : Prop :=
  forall front c, s = front ++ [c] -> isspace c = false.

Definition no_double_space (s : str) : Prop :=
  forall front a b rest,
    s = front ++ a :: b :: rest -> isspace a = false \/ isspace b = false.

(** Tokens, each behind a separating space. *)
Definition flat (ws : list str) : str :=
  concat (map (fun w => space :: w) ws).

(** The tokens of the normalized text. *)
Definition tokens (text : str) : list str := split (clean_text (Some text)).

(** How many tokens, each occurrence counted, are in a lexicon. *)
Definition hits (lexicon : list str) (words : list str) : Z :=
  len (filter (fun w => mem w lexicon) words).

(** The label that the thresholds give to a polarity. *)
Definition labelled (polarity : Q) (l : label) : Prop :=
  (l = positive <-> 1 # 10 < polarity)
  /\ (l = negative <-> polarity < - (1 # 10))
  /\ (l = neutral <-> - (1 # 10) <= polarity <= 1 # 10).

(** The text field of a row is a string that is empty or all whitespace
    (a missing column reads as the empty string). *)
Definition is_blank (r : row) : bool :=
  match get (Review_Text r) [] with
  | Some t => forallb isspace t
  | None => false
  end.

Definition retained (rows : list row) : list row :=
  filter (fun r => negb (is_blank r)) rows.

Definition text_of (r : row) : str :=
  match get (Review_Text r) [] with
  | Some t => t
  | None => []
  end.

Definition label_eqb (a b : label) : bool :=
  match a, b with
  | positive, positive | negative, negative | neutral, neutral => true
  | _, _ => false
  end.

(** How many scored reviews carry a label. *)
Definition labelled_count (l : label) (revs : list review_result) : Z :=
  len (filter (fun r => label_eqb (sentiment r) l) revs).


(** The words that enter the frequency table, in the order met. *)
Definition qualifying_words (rows : list row) : list str :=
  flat_map (fun r => filter (fun w => (3 <? length w)%nat) (tokens (text_of r)))
           (retained rows).

Definition occurrences (w : str) (ws : list str) : Z :=
  len (filter (Str.eqb w) ws).

(** Position of the first occurrence. *)
Fixpoint first_index (w : str) (ws : list str) : nat :=
  match ws with
  | [] => 0
  | x :: ws' => if Str.eqb x w then 0 else S (first_index w ws')
  end.

(** [a] is listed before [b]: more frequent, or as frequent and met
    first. *)
Definition ranked_before (ws : list str) (a b : str * Z) : Prop :=
  (snd b < snd a)%Z
  \/ (snd a = snd b /\ (first_index (fst a) ws < first_index (fst b) ws)%nat).

Definition distinct (ws : list str) : list str :=
  nodup (list_eq_dec ascii_dec) ws.

(** When the word of an entry was first met. *)
Definition met (ws : list str) (e : str * Z) : nat := first_index (fst e) ws.

(** What a counter knows about the words it has counted. *)
Record counts (c : Counter.t) (l : list str) : Prop := {
  counts_keys : forall w, In w (Counter.keys c) <-> In w l;
  counts_values : forall w, Counter.count c w = occurrences w l;
  counts_order :
    StronglySorted lt (map (fun k => first_index k l) (Counter.keys c))
}.

(** [m] is the first element of [l] with the greatest key. *)
Definition first_max {A : Type} (key : A -> Q) (l : list A) (m : A) : Prop :=
  exists front rest,
    l = front ++ m :: rest
    /\ Forall (fun x => key x < key m) front
    /\ Forall (fun x => key x <= key m) rest.

(** [m] is the first element of [l] with the least key. *)
Definition first_min {A : Type} (key : A -> Q) (l : list A) (m : A) : Prop :=
  exists front rest,
    l = front ++ m :: rest
    /\ Forall (fun x => key m < key x) front
    /\ Forall (fun x => key m <= key x) rest.

(** The polarity of a text before rounding. *)
Definition raw_polarity (text : str) : Q := fst (fst (calculate_sentiment text)).

(** The subjectivity of a text before rounding. *)
Definition raw_subjectivity (text : str) : Q :=
  snd (fst (calculate_sentiment text)).

Definition label_of (text : str) : label := snd (calculate_sentiment text).

(** The record that a retained row with text [t] and rating [stars]
    contributes. *)
Definition scored (r : row) (t : str) (stars : pyfloat) : review_result :=
  {| review_id := get (Review_ID r) [];
     review_text := t;
     rating := stars;
     sentiment := label_of t;
     polarity := round (raw_polarity t) 3;
     subjectivity := round (raw_subjectivity t) 3;
     category := get (Product_Category r) (lit "Unknown");
     verified :=
       match get (Verified_Purchase r) (lit "No") with
       | Some v => Str.eqb v (lit "Yes")
       | None => false
       end |}.

(** The accumulators after a retained row. *)
Definition push (a : acc) (r : row) (t : str) (stars : pyfloat) : acc :=
  {| acc_reviews := acc_reviews a ++ [scored r t stars];
     acc_distribution := bump (acc_distribution a) (label_of t);
     polarities := polarities a ++ [raw_polarity t];
     subjectivities := subjectivities a ++ [raw_subjectivity t];
     all_words :=
       all_words a ++ filter (fun w => (3 <? length w)%nat) (tokens t) |}.

(** A stored review carries the scores of its own text, rounded. *)
Definition well_scored (r : review_result) : Prop :=
  polarity r = round (raw_polarity (review_text r)) 3
  /\ subjectivity r = round (raw_subjectivity (review_text r)) 3
  /\ sentiment r = label_of (review_text r).

Section WithFloat.

Variable float_of_str : str -> option pyfloat.

(** The four ways a turn of the loop can go. *)
Inductive step_case (a : acc) (r : row) : exn + acc -> Prop :=
| step_null :
    Review_Text r = Null -> step_case a r (inl AttributeError)
| step_skip :
    is_blank r = true -> step_case a r (inr a)
| step_raise t e :
    get (Review_Text r) [] = Some t -> is_blank r = false ->
    rating_of float_of_str (Rating r) = inl e -> step_case a r (inl e)
| step_push t stars :
    get (Review_Text r) [] = Some t -> is_blank r = false ->
    rating_of float_of_str (Rating r) = inr stars ->
    step_case a r (inr (push a r t stars)).

(** The exception that a row raises when it is processed, if any. *)
Definition row_error (r : row) : option exn :=
  match get (Review_Text r) [] with
  | None => Some AttributeError
  | Some _ =>
      if is_blank r then None
      else match rating_of float_of_str (Rating r) with
           | inl e => Some e
           | inr _ => None
           end
  end.

(** The first exception that the rows raise, if any. *)
Fixpoint first_error (rows : list row) : option exn :=
  match rows with
  | [] => None
  | r :: rows' =>
      match row_error r with
      | Some e => Some e
      | None => first_error rows'
      end
  end.


End WithFloat.

(** The console line that reports an exception. *)
Definition report_of (e : exn) : message :=
  match e with
  | FileNotFoundError => ErrorFileNotFound
  | _ => ErrorDuringAnalysis e
  end.

(** [x] lies between [lo] and [hi]. *)
Definition within (lo hi x : Q) : Prop := lo <= x /\ x <= hi.


(** The counts of two distributions, added. *)
Definition add_distribution (d1 d2 : distribution) : distribution :=
  {| n_positive := n_positive d1 + n_positive d2;
     n_negative := n_negative d1 + n_negative d2;
     n_neutral := n_neutral d1 + n_neutral d2 |}.

(** The accumulators of one stretch of rows after those of another. *)
Definition merge (a b : acc) : acc :=
  {| acc_reviews := acc_reviews a ++ acc_reviews b;
     acc_distribution := add_distribution (acc_distribution a) (acc_distribution b);
     polarities := polarities a ++ polarities b;
     subjectivities := subjectivities a ++ subjectivities b;
     all_words := all_words a ++ all_words b |}.

(** What a stored polarity can be under each label. *)
Definition polarity_fits (l : label) (stored : Q) : Prop :=
  match l with
  | positive => 1 # 10 <= stored
  | negative => stored <= - (1 # 10)
  | neutral => within (- (1 # 10)) (1 # 10) stored
  end.

End Spec.

(** ** Data for the examples *)

Module Examples.

Definition digit (c : ascii) : option Z :=
  let n := code c in
  if ((48 <=? n) && (n <=? 57))%N then Some (Z.of_N n - 48)%Z else None.

Fixpoint digits (value : Z) (s : str) : option Z :=
  match s with
  | [] => Some value
  | c :: s' =>
      match digit c with
      | Some d => digits (10 * value + d)%Z s'
      | None => None
      end
  end.

(** [float] on the strings of decimal digits; every other string is
    refused here. *)
Definition float_of_digits (s : str) : option pyfloat :=
  match s with
  | [] => None
  | _ :: _ => option_map (fun z => Finite (inject_Z z)) (digits 0%Z s)
  end.

Definition review (id text stars : string) : row :=
  {| Review_ID := Field (lit id);
     Review_Text := Field (lit text);
     Rating := Field (lit stars);
     Product_Category := Field (lit "Audio");
     Verified_Purchase := Field (lit "Yes") |}.

(** Two positive reviews, one negative, one neutral, and a blank one. *)
Definition four_reviews : list row :=
  [ review "R1" "Great sound, I love it" "5";
    review "R2" "   " "oops";
    review "R3" "Terrible battery" "1";
    review "R4" "It arrived on a Tuesday" "3";
    review "R5" "Excellent quality and fast delivery" "5" ].


Definition plain (id : string) (t : str) : row :=
  {| Review_ID := Field (lit id);
     Review_Text := Field t;
     Rating := Absent;
     Product_Category := Absent;
     Verified_Purchase := Absent |}.


(** The report of a run, or the empty report when the run raised. *)
Definition report_or_empty (rows : list row) : results_t :=
  match Run.analyze float_of_digits rows with
  | inr res => res
  | inl _ => Run.finish Run.acc0
  end.

Definition four_report : results_t := Eval vm_compute in report_or_empty four_reviews.


(** [k] times the word "good", then [n] times the word "item". *)
Definition good_items (k n : nat) : str :=
  concat (repeat (lit "good ") k) ++ concat (repeat (lit "item ") n).

End Examples.

(** * Properties *)

(** ** Splitting and joining *)

Module StrFacts.

Import Spec.

Lemma split_nonspace_head c s :
  isspace c = false -> exists w ws, split (c :: s) = (c :: w) :: ws.
Proof.
  revert c; induction s as [|d s IH]; intros c Hc.
  - exists [], []. simpl. now rewrite Hc.
  - cbn [split]. rewrite Hc. destruct (isspace d) eqn:Hd.
    + now exists [], (split s).
    + destruct (IH d Hd) as (w & ws & E).
      cbn [split] in E. rewrite Hd in E. rewrite E. now exists (d :: w), ws.
Qed.

Lemma split_tokens s : Forall token (split s).
Proof.
  induction s as [|c s IH]; [constructor|].
  cbn [split]. destruct (isspace c) eqn:Hc; [exact IH|].
  destruct s as [|d s'].
  - repeat constructor; [discriminate | exact Hc].
  - destruct (isspace d) eqn:Hd.
    + constructor; [|exact IH]. split; [discriminate|]. now repeat constructor.
    + destruct (split (d :: s')) as [|w ws].
      * repeat constructor; [discriminate | exact Hc].
      * inversion IH as [|? ? [Hw1 Hw2] Hws]; subst.
        constructor; [|exact Hws]. split; [discriminate|]. now constructor.
Qed.

Lemma split_chars s w c : In w (split s) -> In c w -> In c s.
Proof.
  revert w; induction s as [|a s IH]; intros w Hw Hc; [contradiction|].
  cbn [split] in Hw. destruct (isspace a) eqn:Ha.
  - right. eapply IH; eauto.
  - destruct s as [|d s'].
    + destruct Hw as [<-|[]]. exact Hc.
    + destruct (isspace d) eqn:Hd.
      * destruct Hw as [<-|Hw].
        -- destruct Hc as [<-|[]]. now left.
        -- right. eapply IH; eauto.
      * destruct (split (d :: s')) as [|w0 ws] eqn:E.
        -- destruct Hw as [<-|[]]. destruct Hc as [<-|[]]. now left.
        -- destruct Hw as [<-|Hw].
           ++ destruct Hc as [<-|Hc]; [now left|].
              right. apply (IH w0); [now left | exact Hc].
           ++ right. apply (IH w); [now right | exact Hc].
Qed.

Lemma join_flat w ws : join [space] (w :: ws) = w ++ flat ws.
Proof.
  revert w; induction ws as [|v ws IH]; intros w.
  - cbn. now rewrite app_nil_r.
  - change (join [space] (w :: v :: ws)) with (w ++ [space] ++ join [space] (v :: ws)).
    rewrite IH. reflexivity.
Qed.

Lemma isspace_space : isspace space = true.
Proof. reflexivity. Qed.

Lemma split_token_app w rest :
  token w -> split (w ++ flat rest) = w :: split (flat rest).
Proof.
  intros [Hne Hw]. induction w as [|c w IH]; [congruence|].
  inversion Hw as [|? ? Hc Hw']; subst.
  destruct w as [|d w'].
  - cbn [app]. cbn [split]. rewrite Hc.
    destruct (flat rest) as [|e r] eqn:E; [reflexivity|].
    destruct rest as [|v rest']; [discriminate|].
    cbn in E. injection E as <- _. now rewrite isspace_space.
  - change ((c :: d :: w') ++ flat rest) with (c :: (d :: w') ++ flat rest).
    cbn [split]. rewrite Hc.
    change ((d :: w') ++ flat rest) with (d :: w' ++ flat rest) at 1.
    cbv beta iota.
    inversion Hw' as [|? ? Hd _]; subst. rewrite Hd.
    rewrite IH; [reflexivity | discriminate | exact Hw'].
Qed.

Lemma split_flat ws : Forall token ws -> split (flat ws) = ws.
Proof.
  induction 1 as [|w ws Hw Hws IH]; [reflexivity|].
  change (flat (w :: ws)) with (space :: (w ++ flat ws)).
  cbn [split]. rewrite isspace_space.
  now rewrite split_token_app, IH.
Qed.

(** Splitting what [join] built gives the tokens back. *)
Lemma split_join ws : Forall token ws -> split (join [space] ws) = ws.
Proof.
  destruct ws as [|w ws]; [reflexivity|].
  intros H. inversion H; subst.
  now rewrite join_flat, split_token_app, split_flat.
Qed.


Lemma flat_chars c ws :
  In c (flat ws) -> c = space \/ exists w, In w ws /\ In c w.
Proof.
  induction ws as [|v ws IH]; [contradiction|].
  change (flat (v :: ws)) with (space :: v ++ flat ws).
  intros [<-|[H|H]%in_app_or]; [now left| |].
  - right. exists v. split; [now left | exact H].
  - destruct (IH H) as [->|(w & Hw & Hc)]; [now left|].
    right. exists w. split; [now right | exact Hc].
Qed.

Lemma join_chars c ws :
  In c (join [space] ws) -> c = space \/ exists w, In w ws /\ In c w.
Proof.
  destruct ws as [|v ws]; [contradiction|].
  rewrite join_flat. intros [H|H]%in_app_or.
  - right. exists v. split; [now left | exact H].
  - destruct (flat_chars c ws H) as [->|(w & Hw & Hc)]; [now left|].
    right. exists w. split; [now right | exact Hc].
Qed.

(** A run of non-whitespace followed by separated tokens has no two
    adjacent whitespace characters. *)
Lemma flat_no_double_space front : forall u ws a b rest,
  Forall (fun c => isspace c = false) u -> Forall token ws ->
  u ++ flat ws = front ++ a :: b :: rest ->
  isspace a = false \/ isspace b = false.
Proof.
  induction front as [|x front IH]; intros u ws a b rest Hu Hws E.
  - destruct u as [|c u].
    + destruct ws as [|w ws]; [discriminate|].
      inversion Hws as [|? ? [Hne Hw] _]; subst.
      destruct w as [|d w]; [congruence|].
      cbn in E. injection E as _ <- _. right. now inversion Hw.
    + cbn in E. injection E as <- _. left. now inversion Hu.
  - destruct u as [|c u].
    + destruct ws as [|w ws]; [discriminate|].
      inversion Hws as [|? ? [Hne Hw] Hws']; subst.
      change (flat (w :: ws)) with (space :: w ++ flat ws) in E.
      cbn in E. injection E as _ E. eapply IH; eauto.
    + cbn in E. injection E as _ E. inversion Hu; subst. eapply IH; eauto.
Qed.

Lemma flat_last ws front c :
  Forall token ws -> flat ws = front ++ [c] -> isspace c = false.
Proof.
  revert front; induction ws as [|w ws IH]; intros front Hws E.
  - now destruct front.
  - inversion Hws as [|? ? [Hne Hw] Hws']; subst.
    change (flat (w :: ws)) with ((space :: w) ++ flat ws) in E.
    destruct ws as [|v ws].
    + cbn [flat map concat] in E. rewrite app_nil_r in E.
      assert (In c (space :: w)) as [<-|Hin].
      { rewrite E. apply in_or_app. right. now left. }
      * destruct w as [|d w]; [congruence|].
        destruct (@exists_last _ (d :: w)) as (w' & z & Ez); [discriminate|].
        rewrite Ez in E. change (space :: w' ++ [z]) with ((space :: w') ++ [z]) in E.
        apply app_inj_tail in E as [_ <-].
        rewrite Forall_forall in Hw. apply Hw. rewrite Ez.
        apply in_or_app. right. now left.
      * rewrite Forall_forall in Hw. now apply Hw.
    + destruct (@exists_last _ (flat (v :: ws))) as (f' & z & Ez); [discriminate|].
      rewrite Ez, app_assoc in E. apply app_inj_tail in E as [_ <-].
      eapply IH; eauto.
Qed.

Lemma lower_alpha_is_lower c :
  is_alpha (lower_char c) = true -> is_lower (lower_char c) = true.
Proof.
  destruct c as [[] [] [] [] [] [] [] []]; vm_compute; intros H;
    first [reflexivity | discriminate H].
Qed.

(** The tokens of the cleaned text are made of lowercase letters. *)
Lemma cleaned_token_chars t w c :
  In w (split (strip_special (lower t))) -> In c w -> is_lower c = true.
Proof.
  intros Hw Hc.
  pose proof (split_tokens (strip_special (lower t))) as Ht.
  rewrite Forall_forall in Ht. destruct (Ht w Hw) as [_ Hns].
  rewrite Forall_forall in Hns. specialize (Hns c Hc).
  pose proof (split_chars _ _ _ Hw Hc) as Hin.
  unfold strip_special in Hin. apply filter_In in Hin as [Hin Hkeep].
  unfold lower in Hin. apply in_map_iff in Hin as (c0 & <- & _).
  rewrite Hns, orb_false_r in Hkeep. now apply lower_alpha_is_lower.
Qed.


(** On every string, cleaning is splitting the filtered text and joining
    the tokens. *)
Lemma clean_text_some t :
  clean_text (Some t) = join [space] (split (strip_special (lower t))).
Proof. destruct t; reflexivity. Qed.

(** The tokens of the cleaned text are those of the filtered text. *)
Lemma tokens_eq t : tokens t = split (strip_special (lower t)).
Proof.
  unfold tokens. rewrite clean_text_some. apply split_join, split_tokens.
Qed.

End StrFacts.

Import Insights Run Spec StrFacts.

(** ** The text normalizer *)

(** C7. [clean_text] is a total function on strings and on [None]; its
    result holds only lowercase ASCII letters and spaces, has no whitespace
    in front, none at the end and no two whitespace characters in a row;
    the empty string and [None] give the empty string. *)
Theorem clean_text_normal_form (text : option str) :
  only_lower_and_space (clean_text text)
  /\ no_leading_space (clean_text text)
  /\ no_trailing_space (clean_text text)
  /\ no_double_space (clean_text text)
  /\ clean_text None = []
  /\ clean_text (Some []) = [].
Proof.
  assert (Hnil : only_lower_and_space [] /\ no_leading_space []
                 /\ no_trailing_space [] /\ no_double_space []).
  { repeat split.
    - constructor.
    - intros c rest E. discriminate E.
    - intros front c E. now destruct front.
    - intros front a b rest E. now destruct front. }
  destruct text as [t|]; [|tauto].
  rewrite clean_text_some.
  pose proof (split_tokens (strip_special (lower t))) as Htok.
  assert (Hlow : forall w c, In w (split (strip_special (lower t))) ->
                             In c w -> is_lower c = true)
    by (intros w c; apply cleaned_token_chars).
  destruct (split (strip_special (lower t))) as [|w ws] eqn:E; [tauto|].
  inversion Htok as [|? ? [Hne Hw] Hws]; subst.
  rewrite join_flat.
  repeat split; try reflexivity.
  - apply Forall_forall. intros c Hc.
    rewrite <- join_flat in Hc.
    destruct (join_chars c (w :: ws) Hc) as [->|(v & Hv & Hcv)]; [now right|].
    left. eapply Hlow; eauto.
  - intros c rest Ec. destruct w as [|d w]; [congruence|].
    cbn in Ec. injection Ec as <- _. now inversion Hw.
  - intros front c Ec. destruct ws as [|v ws].
    + cbn [flat map concat] in Ec. rewrite app_nil_r in Ec.
      rewrite Forall_forall in Hw. apply Hw. rewrite Ec.
      apply in_or_app. right. now left.
    + destruct (@exists_last _ (flat (v :: ws))) as (f' & z & Ez);
        [discriminate|].
      rewrite Ez, app_assoc in Ec. apply app_inj_tail in Ec as [_ <-].
      eapply flat_last; eauto.
  - intros front a b rest Ec. eapply flat_no_double_space; eauto.
Qed.

(** ** Counting and comparing *)

Module NumFacts.

Lemma sum_from (l : list Z) (a : Z) :
  fold_left Z.add l a = (a + sum l)%Z.
Proof.
  unfold sum. revert a; induction l as [|x l IH]; intros a; cbn [fold_left].
  - lia.
  - rewrite IH, (IH (0 + x)%Z). lia.
Qed.

Lemma sum_ones {A : Type} (l : list A) : sum (map (fun _ => 1%Z) l) = len l.
Proof.
  unfold len. induction l as [|x l IH]; [reflexivity|].
  unfold sum in *. cbn [map fold_left]. rewrite sum_from. unfold sum.
  rewrite IH. cbn [length]. lia.
Qed.

Lemma count_in_hits lexicon words : count_in lexicon words = hits lexicon words.
Proof. apply sum_ones. Qed.

Lemma len_nonneg {A : Type} (l : list A) : (0 <= len l)%Z.
Proof. unfold len. lia. Qed.

Lemma len_cons {A : Type} (x : A) (l : list A) : len (x :: l) = (len l + 1)%Z.
Proof. unfold len. cbn [length]. lia. Qed.

Lemma len_app {A : Type} (l1 l2 : list A) : len (l1 ++ l2) = (len l1 + len l2)%Z.
Proof. unfold len. rewrite length_app. lia. Qed.

Lemma eqb_eq (a b : str) : Str.eqb a b = true <-> a = b.
Proof. unfold Str.eqb. destruct (list_eq_dec ascii_dec a b); split; congruence. Qed.

Lemma eqb_refl (a : str) : Str.eqb a a = true.
Proof. now apply eqb_eq. Qed.

Lemma eqb_neq (a b : str) : Str.eqb a b = false <-> a <> b.
Proof. unfold Str.eqb. destruct (list_eq_dec ascii_dec a b); split; congruence. Qed.

Lemma mem_In (w : str) (words : list str) : mem w words = true <-> In w words.
Proof.
  unfold mem. rewrite existsb_exists. split.
  - intros (x & Hx & E). apply eqb_eq in E. now subst.
  - intros H. exists w. split; [exact H | apply eqb_refl].
Qed.

Lemma Qlt_bool_iff (a b : Q) : Qlt_bool a b = true <-> a < b.
Proof.
  unfold Qlt_bool. rewrite negb_true_iff. split.
  - intros H. apply Qnot_le_lt. intros Hle.
    apply Qle_bool_iff in Hle. congruence.
  - intros H. destruct (Qle_bool b a) eqn:E; [|reflexivity].
    apply Qle_bool_iff in E. exfalso. exact (Qlt_not_le _ _ H E).
Qed.

Lemma Qlt_bool_false (a b : Q) : Qlt_bool a b = false <-> b <= a.
Proof.
  unfold Qlt_bool. rewrite negb_false_iff. apply Qle_bool_iff.
Qed.

(** Division by a positive integer, as a fraction. *)
Lemma truediv_pos (a : Z) (k : BinNums.positive) : truediv a (Zpos k) = (a * 1 # 1 * k).
Proof. reflexivity. Qed.

Lemma len_pos_cons {A : Type} (x : A) (l : list A) :
  exists k, len (x :: l) = Zpos k.
Proof.
  unfold len. cbn [length]. exists (Pos.of_succ_nat (length l)). lia.
Qed.

End NumFacts.

Import NumFacts.

(** ** The lexicons *)

Lemma lexicons_apart (w : str) :
  In w positive_words -> In w negative_words -> False.
Proof.
  intros Hp Hn.
  assert (H : forallb (fun x => negb (mem x negative_words)) positive_words = true)
    by (vm_compute; reflexivity).
  rewrite forallb_forall in H. specialize (H w Hp).
  apply mem_In in Hn. rewrite Hn in H. discriminate H.
Qed.

Lemma hits_apart (words : list str) :
  (hits positive_words words + hits negative_words words <= len words)%Z.
Proof.
  unfold hits. induction words as [|w words IH]; [cbn; lia|].
  cbn [filter]. rewrite len_cons.
  destruct (mem w positive_words) eqn:Hp, (mem w negative_words) eqn:Hn;
    rewrite ?len_cons; try lia.
  exfalso. apply (lexicons_apart w); now apply mem_In.
Qed.

Lemma hits_nonneg lexicon words : (0 <= hits lexicon words)%Z.
Proof. apply len_nonneg. Qed.

(** C9. No word is in both lexicons; so a token counts for at most one of
    the two counts, and the two counts of a text together never exceed its
    number of tokens. *)
Theorem lexicons_disjoint :
  (forall w : str, mem w positive_words && mem w negative_words = false)
  /\ (forall text : str,
        (count_in positive_words (tokens text)
         + count_in negative_words (tokens text) <= len (tokens text))%Z).
Proof.
  split.
  - intros w. destruct (mem w positive_words) eqn:Hp; [|reflexivity].
    destruct (mem w negative_words) eqn:Hn; [|reflexivity].
    exfalso. apply (lexicons_apart w); now apply mem_In.
  - intros text. rewrite !count_in_hits. apply hits_apart.
Qed.

(** ** The scorer *)

Lemma labelled_thresholds (polarity : Q) :
  labelled polarity
    (if Qlt_bool (1 # 10) polarity then positive
     else if Qlt_bool polarity (- (1 # 10)) then negative
     else neutral).
Proof.
  unfold labelled.
  destruct (Qlt_bool (1 # 10) polarity) eqn:Hp.
  - apply Qlt_bool_iff in Hp.
    repeat split; try discriminate; try tauto.
    + intros H. exfalso. apply (Qlt_irrefl polarity).
      apply Qlt_trans with (- (1 # 10)); [exact H|].
      apply Qlt_trans with (1 # 10); [reflexivity | exact Hp].
    + intros [_ H]. exfalso. exact (Qlt_not_le _ _ Hp H).
  - apply Qlt_bool_false in Hp.
    destruct (Qlt_bool polarity (- (1 # 10))) eqn:Hn.
    + apply Qlt_bool_iff in Hn.
      repeat split; try discriminate; try tauto.
      * intros H. exfalso. exact (Qlt_not_le _ _ H Hp).
      * intros [H _]. exfalso. exact (Qlt_not_le _ _ Hn H).
    + apply Qlt_bool_false in Hn.
      repeat split; try discriminate; try tauto.
      * intros H. exfalso. exact (Qlt_not_le _ _ H Hp).
      * intros H. exfalso. exact (Qlt_not_le _ _ H Hn).
Qed.

(** C1. The scorer normalizes the text and splits it into [n] tokens.
    With no token it returns polarity 0, subjectivity 0 and the neutral
    label.  Otherwise, with [p] and [q] the numbers of tokens (each
    occurrence counted) in the positive and in the negative lexicon, the
    polarity is 0 when [p + q = 0] and [(p - q) / n] otherwise, the
    subjectivity is [(p + q) / n], and the label is positive above 0.1,
    negative below -0.1 and neutral in between, 0.1 and -0.1 included. *)
Theorem calculate_sentiment_spec (text : str) :
  let words := tokens text in
  let n := len words in
  let p := hits positive_words words in
  let q := hits negative_words words in
  exists polarity subjectivity sentiment,
    calculate_sentiment text = (polarity, subjectivity, sentiment)
    /\ if (n =? 0)%Z
       then polarity = 0 /\ subjectivity = 0 /\ sentiment = neutral
       else polarity = (if (p + q =? 0)%Z then 0
                        else inject_Z (p - q) / inject_Z n)
            /\ subjectivity = inject_Z (p + q) / inject_Z n
            /\ labelled polarity sentiment.
Proof.
  cbv zeta. unfold calculate_sentiment. fold (tokens text).
  destruct (tokens text) as [|w ws] eqn:E.
  - exists 0, 0, neutral. cbn. tauto.
  - rewrite !count_in_hits.
    destruct (len_pos_cons w ws) as (k & Hk). rewrite Hk. cbn [Z.eqb].
    eexists _, _, _. split; [reflexivity|].
    split; [reflexivity|]. split; [reflexivity|].
    apply labelled_thresholds.
Qed.

Lemma scores_bounds (text : str) :
  0 <= raw_subjectivity text
  /\ raw_subjectivity text <= 1
  /\ - raw_subjectivity text <= raw_polarity text
  /\ raw_polarity text <= raw_subjectivity text.
Proof.
  unfold raw_subjectivity, raw_polarity, calculate_sentiment.
  fold (tokens text).
  pose proof (hits_apart (tokens text)) as Hle.
  pose proof (hits_nonneg positive_words (tokens text)) as Hp.
  pose proof (hits_nonneg negative_words (tokens text)) as Hq.
  destruct (tokens text) as [|w ws] eqn:E.
  - cbn. repeat split; discriminate.
  - rewrite !count_in_hits.
    destruct (len_pos_cons w ws) as (k & Hk). rewrite Hk in *.
    set (p := hits positive_words (w :: ws)) in *.
    set (q := hits negative_words (w :: ws)) in *.
    cbn [fst snd]. rewrite !truediv_pos.
    repeat split.
    + unfold Qle. cbn [Qnum Qden]. nia.
    + unfold Qle. cbn [Qnum Qden]. nia.
    + destruct (p + q =? 0)%Z; unfold Qle, Qopp; cbn [Qnum Qden]; nia.
    + destruct (p + q =? 0)%Z; unfold Qle; cbn [Qnum Qden]; nia.
Qed.

(** C2. For every text the subjectivity lies in [0, 1] and the absolute
    value of the polarity is at most the subjectivity. *)
Theorem scores_in_range (text : str) :
  0 <= raw_subjectivity text
  /\ raw_subjectivity text <= 1
  /\ Qabs (raw_polarity text) <= raw_subjectivity text.
Proof.
  destruct (scores_bounds text) as (H0 & H1 & Hlo & Hhi).
  repeat split; try assumption.
  apply Qabs_Qle_condition. now split.
Qed.

(** The same bounds hold after the two quotients are rounded by a monotone
    function that fixes 0 and 1 and commutes with the opposite, as
    rounding to the nearest binary64 number is. *)
Corollary rounded_scores_bounded (rnd : Q -> Q) (text : str) :
  (forall x y, x <= y -> rnd x <= rnd y) ->
  rnd 0 == 0 -> rnd 1 == 1 -> (forall x, rnd (- x) == - rnd x) ->
  0 <= rnd (raw_subjectivity text)
  /\ rnd (raw_subjectivity text) <= 1
  /\ Qabs (rnd (raw_polarity text)) <= rnd (raw_subjectivity text).
Proof.
  intros Hmono R0 R1 Ropp.
  destruct (scores_bounds text) as (H0 & H1 & Hlo & Hhi).
  repeat split.
  - rewrite <- R0. now apply Hmono.
  - rewrite <- R1. now apply Hmono.
  - apply Qabs_Qle_condition. split; [|now apply Hmono].
    rewrite <- Ropp. now apply Hmono.
Qed.

(** The example of the specification: 3 positive tokens out of 9. *)
Example amazing_quality_great :
  calculate_sentiment (lit "This product is amazing and the quality is great")
  = (3 # 9, 3 # 9, positive)
  /\ round (3 # 9) 3 = 333 # 1000.
Proof. split; vm_compute; reflexivity. Qed.

(** One positive token out of ten: the polarity is 0.1 and the label is
    neutral. *)
Example one_tenth_is_neutral :
  calculate_sentiment (lit "good one two three four five six seven eight nine")
  = (1 # 10, 1 # 10, neutral).
Proof. vm_compute; reflexivity. Qed.

(** ** The loop over the rows *)

Module LoopFacts.

Lemma lstrip_all_space s : forallb isspace s = true -> lstrip s = [].
Proof.
  induction s as [|c s IH]; [reflexivity|]. cbn [forallb lstrip].
  intros [Hc Hs]%andb_prop. rewrite Hc. auto.
Qed.

Lemma lstrip_some s :
  forallb isspace s = false ->
  exists c s', lstrip s = c :: s' /\ isspace c = false.
Proof.
  induction s as [|c s IH]; [discriminate|]. cbn [forallb lstrip].
  destruct (isspace c) eqn:Hc; cbn [andb]; intros H.
  - exact (IH H).
  - now exists c, s.
Qed.

Lemma forallb_snoc_false s c :
  isspace c = false -> forallb isspace (s ++ [c]) = false.
Proof.
  intros Hc. rewrite forallb_app. cbn. rewrite Hc. apply andb_false_r.
Qed.

(** [not text.strip()] holds exactly of the empty and the all-whitespace
    strings. *)
Lemma strip_truthy t : truthy (strip t) = negb (forallb isspace t).
Proof.
  unfold strip, rstrip. destruct (forallb isspace t) eqn:Ht.
  - now rewrite (lstrip_all_space t Ht).
  - destruct (lstrip_some t Ht) as (c & s' & -> & Hc).
    cbn [rev]. destruct (lstrip_some _ (forallb_snoc_false (rev s') c Hc))
      as (d & u & -> & _).
    cbn [rev]. now destruct (rev u).
Qed.

Section WithFloat.

Variable float_of_str : str -> option pyfloat.

Local Abbreviation step := (Run.step float_of_str).
Local Abbreviation loop := (Run.loop float_of_str).
Local Abbreviation rating_of := (Run.rating_of float_of_str).
Local Abbreviation step_case := (Spec.step_case float_of_str).
Local Abbreviation row_error := (Spec.row_error float_of_str).
Local Abbreviation first_error := (Spec.first_error float_of_str).

Lemma long_word_filter (ws : list str) :
  filter (fun word => (3 <? len word)%Z) ws
  = filter (fun w => (3 <? length w)%nat) ws.
Proof.
  apply filter_ext. intros w. unfold len.
  destruct (3 <? length w)%nat eqn:E.
  - apply Nat.ltb_lt in E. apply Z.ltb_lt. lia.
  - apply Nat.ltb_ge in E. apply Z.ltb_ge. lia.
Qed.

Lemma step_cases a r : step_case a r (step a r).
Proof.
  unfold Run.step.
  destruct (get (Review_Text r) []) as [t|] eqn:Et.
  - rewrite strip_truthy, negb_involutive.
    destruct (forallb isspace t) eqn:Hb.
    + apply step_skip. unfold is_blank. now rewrite Et.
    + assert (Hnb : is_blank r = false) by (unfold is_blank; now rewrite Et).
      destruct (calculate_sentiment t) as [[pol sub] lab] eqn:Ec.
      destruct (rating_of (Rating r)) as [e|stars] eqn:Er.
      * eapply step_raise; eauto.
      * replace (inr _) with (@inr exn acc (push a r t stars)).
        { eapply step_push; eauto. }
        unfold push, scored, raw_polarity, raw_subjectivity, label_of.
        rewrite Ec. cbn [fst snd]. fold (tokens t).
        now rewrite long_word_filter.
  - apply step_null. destruct (Review_Text r); try discriminate. reflexivity.
Qed.


Lemma step_blank a r : is_blank r = true -> step a r = inr a.
Proof.
  intros Hb. destruct (step_cases a r) as [Hn| |t e Ht Hnb|t stars Ht Hnb];
    try reflexivity; try congruence.
  unfold is_blank in Hb. rewrite Hn in Hb. discriminate Hb.
Qed.

(** Blank rows leave the loop where it was. *)
Lemma loop_retained rows : forall a, loop a rows = loop a (retained rows).
Proof.
  induction rows as [|r rows IH]; intros a; [reflexivity|].
  unfold retained. cbn [filter]. fold (retained rows).
  destruct (is_blank r) eqn:Hb; cbn [negb Run.loop].
  - rewrite (step_blank a r Hb). apply IH.
  - destruct (step a r); [reflexivity | apply IH].
Qed.

Lemma row_error_step a r :
  row_error r = match step a r with inl e => Some e | inr _ => None end.
Proof.
  unfold Spec.row_error.
  destruct (step_cases a r) as [Hn|Hb|t e Ht Hnb He|t stars Ht Hnb Hs].
  - now rewrite Hn.
  - rewrite Hb. unfold is_blank in Hb.
    destruct (get (Review_Text r) []); [reflexivity | discriminate Hb].
  - now rewrite Ht, Hnb, He.
  - now rewrite Ht, Hnb, Hs.
Qed.

(** The loop stops at the first row that raises, with its exception. *)
Lemma loop_first_error rows : forall a,
  first_error rows = match loop a rows with inl e => Some e | inr _ => None end.
Proof.
  induction rows as [|r rows IH]; intros a; [reflexivity|].
  cbn [Spec.first_error Run.loop]. rewrite (row_error_step a r).
  destruct (step a r) as [e|a']; [reflexivity | apply IH].
Qed.

(** What a loop that ends normally has added to the accumulators. *)
Lemma loop_added rows : forall a a',
  loop a rows = inr a' ->
  exists news,
    acc_reviews a' = acc_reviews a ++ news
    /\ map review_text news = map text_of (retained rows)
    /\ Forall well_scored news
    /\ acc_distribution a'
       = fold_left bump (map sentiment news) (acc_distribution a)
    /\ polarities a'
       = polarities a ++ map (fun r => raw_polarity (review_text r)) news
    /\ subjectivities a'
       = subjectivities a
         ++ map (fun r => raw_subjectivity (review_text r)) news
    /\ all_words a' = all_words a ++ qualifying_words rows.
Proof.
  induction rows as [|r rows IH]; intros a a' E.
  - injection E as <-. exists []. cbn. rewrite !app_nil_r. repeat split; constructor.
  - cbn [Run.loop] in E. unfold qualifying_words, retained. cbn [filter].
    fold (retained rows).
    destruct (step_cases a r) as [Hn|Hb|t e Ht Hnb He|t stars Ht Hnb Hs];
      try discriminate E.
    + rewrite Hb. cbn [negb]. apply IH in E. exact E.
    + rewrite Hnb. cbn [negb map flat_map].
      destruct (IH _ _ E) as (news & E1 & E2 & E3 & E4 & E5 & E6 & E7).
      exists (scored r t stars :: news). cbn [push acc_reviews acc_distribution
        polarities subjectivities all_words] in *.
      rewrite <- !app_assoc in *. cbn [app] in *.
      repeat split; try assumption.
      * cbn [map scored review_text]. unfold text_of. rewrite Ht. now f_equal.
      * constructor; [|assumption]. repeat split.
      * unfold text_of at 1. rewrite Ht. exact E7.
Qed.

Lemma count_of_bump d s l :
  count_of (bump d s) l = (count_of d l + (if label_eqb s l then 1 else 0))%Z.
Proof. destruct s, l; cbn; lia. Qed.

Lemma count_of_fold ss : forall d l,
  count_of (fold_left bump ss d) l
  = (count_of d l + len (filter (fun s => label_eqb s l) ss))%Z.
Proof.
  induction ss as [|s ss IH]; intros d l; cbn [fold_left filter].
  - cbn. lia.
  - rewrite IH, count_of_bump. destruct (label_eqb s l); rewrite ?len_cons; lia.
Qed.

Lemma filter_map_label l (revs : list review_result) :
  len (filter (fun s => label_eqb s l) (map sentiment revs))
  = labelled_count l revs.
Proof.
  unfold labelled_count, len. f_equal.
  induction revs as [|r revs IH]; [reflexivity|].
  cbn [map filter]. destruct (label_eqb (sentiment r) l); cbn [length]; lia.
Qed.

(** The accumulators of a whole run. *)
Lemma loop_total rows a :
  loop acc0 rows = inr a ->
  map review_text (acc_reviews a) = map text_of (retained rows)
  /\ Forall well_scored (acc_reviews a)
  /\ (forall l, count_of (acc_distribution a) l = labelled_count l (acc_reviews a))
  /\ polarities a = map (fun r => raw_polarity (review_text r)) (acc_reviews a)
  /\ subjectivities a
     = map (fun r => raw_subjectivity (review_text r)) (acc_reviews a)
  /\ all_words a = qualifying_words rows.
Proof.
  intros E. destruct (loop_added rows acc0 a E)
    as (news & E1 & E2 & E3 & E4 & E5 & E6 & E7).
  cbn [acc0 acc_reviews acc_distribution polarities subjectivities all_words app]
    in *.
  rewrite E1. repeat split; try assumption.
  intros l. rewrite E4, count_of_fold, filter_map_label. now destruct l.
Qed.

Lemma labels_partition (revs : list review_result) :
  (labelled_count positive revs + labelled_count negative revs
   + labelled_count neutral revs = len revs)%Z.
Proof.
  unfold labelled_count. induction revs as [|r revs IH]; [reflexivity|].
  cbn [filter]. rewrite len_cons.
  destruct (sentiment r); cbn [label_eqb]; rewrite ?len_cons; lia.
Qed.

End WithFloat.

End LoopFacts.

Import LoopFacts Examples.

(** ** The aggregate *)

Lemma analyze_inr float_of_str rows res :
  analyze float_of_str rows = inr res ->
  exists a, loop float_of_str acc0 rows = inr a /\ res = finish a.
Proof.
  unfold analyze. destruct (loop float_of_str acc0 rows) as [e|a]; [discriminate|].
  intros E. injection E as <-. now exists a.
Qed.

Lemma analyze_retained float_of_str rows :
  analyze float_of_str rows = analyze float_of_str (retained rows).
Proof. unfold analyze. now rewrite loop_retained. Qed.

Lemma retained_without front r back :
  is_blank r = true -> retained (front ++ r :: back) = retained (front ++ back).
Proof.
  intros Hb. unfold retained. rewrite !filter_app. cbn [filter].
  now rewrite Hb.
Qed.

Lemma len_map {A B : Type} (f : A -> B) (l : list A) : len (map f l) = len l.
Proof. unfold len. now rewrite length_map. Qed.

Lemma finish_fields a :
  total_reviews (finish a) = len (acc_reviews a)
  /\ sentiment_distribution (finish a) = acc_distribution a
  /\ reviews (finish a) = acc_reviews a
  /\ most_common (word_analysis (finish a))
     = Counter.most_common_n 10 (Counter.Counter (all_words a))
  /\ total_unique_words (word_analysis (finish a))
     = len (Counter.Counter (all_words a))
  /\ insights (finish a) = generate_insights (finish a).
Proof.
  unfold finish. destruct (0 <? len (acc_reviews a))%Z; cbn; tauto.
Qed.

Lemma finish_score a :
  satisfaction_score (finish a)
  = if (0 <? len (acc_reviews a))%Z
    then round ((truediv (count_of (acc_distribution a) positive)
                         (len (acc_reviews a))
                 - truediv (count_of (acc_distribution a) negative)
                           (len (acc_reviews a)) + 1) * 50) 1
    else 0.
Proof.
  unfold finish. destruct (0 <? len (acc_reviews a))%Z; reflexivity.
Qed.

(** The report of a run covers the rows with a non-blank text, and only
    them. *)
Lemma report_covers float_of_str rows res :
  analyze float_of_str rows = inr res ->
  total_reviews res = len (retained rows)
  /\ map review_text (reviews res) = map text_of (retained rows).
Proof.
  intros E. destruct (analyze_inr _ _ _ E) as (a & Ea & Eres).
  destruct (loop_total _ _ _ Ea) as (Ht & _).
  destruct (finish_fields a) as (Ftot & _ & Frev & _).
  rewrite <- Eres in Ftot, Frev. rewrite Ftot, Frev.
  split; [|exact Ht].
  rewrite <- (len_map review_text), Ht. apply len_map.
Qed.

(** C3. In the report of a run the three counts of the distribution sum
    to [total_reviews], and the rows whose text is empty or all whitespace
    are left out: [total_reviews] counts the other rows only, [reviews]
    lists the other rows only, in their order, and the whole report
    (distribution, averages, satisfaction score, word analysis) is the one
    of the run without the blank rows, and stays the same when any one
    blank row is removed. *)
Theorem blank_reviews_excluded
    (float_of_str : str -> option pyfloat) (rows : list row) (res : results_t) :
  analyze float_of_str rows = inr res ->
  (n_positive (sentiment_distribution res)
   + n_negative (sentiment_distribution res)
   + n_neutral (sentiment_distribution res) = total_reviews res)%Z
  /\ total_reviews res = len (retained rows)
  /\ map review_text (reviews res) = map text_of (retained rows)
  /\ analyze float_of_str (retained rows) = inr res
  /\ (forall front r back,
        rows = front ++ r :: back -> is_blank r = true ->
        analyze float_of_str (front ++ back) = inr res).
Proof.
  intros E. destruct (analyze_inr _ _ _ E) as (a & Ea & Eres).
  destruct (loop_total _ _ _ Ea) as (Ht & _ & Hd & _ & _ & _).
  destruct (finish_fields a) as (Ftot & Fdist & Frev & _).
  rewrite <- Eres in Ftot, Fdist, Frev. rewrite Ftot, Fdist, Frev.
  split; [|split; [|split; [|split]]].
  - pose proof (Hd positive) as Hp. pose proof (Hd negative) as Hn.
    pose proof (Hd neutral) as Hu. cbn [count_of] in Hp, Hn, Hu.
    rewrite Hp, Hn, Hu. apply labels_partition.
  - rewrite <- (len_map review_text), Ht. apply len_map.
  - exact Ht.
  - rewrite <- analyze_retained. exact E.
  - intros front r back -> Hb.
    rewrite analyze_retained, <- (retained_without front r back Hb),
      <- analyze_retained. exact E.
Qed.

Lemma blank_reviews_excluded_witness :
  analyze float_of_digits four_reviews = inr four_report
  /\ (n_positive (sentiment_distribution four_report)
      + n_negative (sentiment_distribution four_report)
      + n_neutral (sentiment_distribution four_report)
      = total_reviews four_report)%Z
  /\ total_reviews four_report = len (retained four_reviews)
  /\ map review_text (reviews four_report) = map text_of (retained four_reviews)
  /\ analyze float_of_digits (retained four_reviews) = inr four_report
  /\ (forall front r back,
        four_reviews = front ++ r :: back -> is_blank r = true ->
        analyze float_of_digits (front ++ back) = inr four_report).
Proof.
  split; [vm_compute; reflexivity|].
  apply (blank_reviews_excluded float_of_digits four_reviews four_report).
  vm_compute; reflexivity.
Defined.




(** ** The run as a whole *)


(** A rating that [float] refuses stops the run: the error is shown and
    nothing is written or returned. *)
Example unparsable_rating_aborts :
  analyze_reviews float_of_digits
    (inr [ review "R1" "Great sound" "5"; review "R2" "Bad cable" "five" ])
  = {| console :=
         [ Starting; Processing 2;
           ErrorDuringAnalysis (ValueError (lit "five")) ];
       written := [];
       returned := None |}.
Proof. vm_compute; reflexivity. Qed.

(** A row shorter than the header has no text: [None.strip()] raises. *)
Example short_row_aborts :
  analyze_reviews float_of_digits
    (inr [ {| Review_ID := Field (lit "R1"); Review_Text := Null;
              Rating := Null; Product_Category := Null;
              Verified_Purchase := Null |} ])
  = {| console := [ Starting; Processing 1; ErrorDuringAnalysis AttributeError ];
       written := [];
       returned := None |}.
Proof. vm_compute; reflexivity. Qed.

Example missing_file_aborts :
  analyze_reviews float_of_digits (inl FileNotFoundError)
  = {| console := [ Starting; ErrorFileNotFound ];
       written := [];
       returned := None |}.
Proof. vm_compute; reflexivity. Qed.

(** ** The extremal reviews *)

Section Extremum.

Context {A : Type} (key : A -> Q).

Lemma max_from_first : forall l front best mid,
  Forall (fun x => key x < key best) front ->
  Forall (fun x => key x <= key best) mid ->
  first_max key (front ++ best :: mid ++ l) (max_from key best l).
Proof.
  induction l as [|x l IH]; intros front best mid Hf Hm; cbn [max_from].
  - exists front, mid. rewrite app_nil_r. tauto.
  - destruct (Qlt_bool (key best) (key x)) eqn:Hx.
    + apply Qlt_bool_iff in Hx.
      replace (front ++ best :: mid ++ x :: l)
        with ((front ++ best :: mid) ++ x :: [] ++ l)
        by (rewrite <- app_assoc; reflexivity).
      apply IH; [|constructor].
      apply Forall_app. split; [|constructor].
      * eapply Forall_impl; [|exact Hf]. intros y Hy. cbv beta in Hy.
        eapply Qlt_trans; eauto.
      * exact Hx.
      * eapply Forall_impl; [|exact Hm]. intros y Hy. cbv beta in Hy.
        eapply Qle_lt_trans; eauto.
    + apply Qlt_bool_false in Hx.
      replace (front ++ best :: mid ++ x :: l)
        with (front ++ best :: (mid ++ [x]) ++ l)
        by (rewrite <- app_assoc; reflexivity).
      apply IH; [exact Hf|].
      apply Forall_app. split; [exact Hm|]. now constructor.
Qed.

Lemma min_from_first : forall l front best mid,
  Forall (fun x => key best < key x) front ->
  Forall (fun x => key best <= key x) mid ->
  first_min key (front ++ best :: mid ++ l) (min_from key best l).
Proof.
  induction l as [|x l IH]; intros front best mid Hf Hm; cbn [min_from].
  - exists front, mid. rewrite app_nil_r. tauto.
  - destruct (Qlt_bool (key x) (key best)) eqn:Hx.
    + apply Qlt_bool_iff in Hx.
      replace (front ++ best :: mid ++ x :: l)
        with ((front ++ best :: mid) ++ x :: [] ++ l)
        by (rewrite <- app_assoc; reflexivity).
      apply IH; [|constructor].
      apply Forall_app. split; [|constructor].
      * eapply Forall_impl; [|exact Hf]. intros y Hy. cbv beta in Hy.
        eapply Qlt_trans; eauto.
      * exact Hx.
      * eapply Forall_impl; [|exact Hm]. intros y Hy. cbv beta in Hy.
        eapply Qlt_le_trans; eauto.
    + apply Qlt_bool_false in Hx.
      replace (front ++ best :: mid ++ x :: l)
        with (front ++ best :: (mid ++ [x]) ++ l)
        by (rewrite <- app_assoc; reflexivity).
      apply IH; [exact Hf|].
      apply Forall_app. split; [exact Hm|]. now constructor.
Qed.

(** [max] returns the first element with the greatest key. *)
Lemma max_by_first (x : A) (l : list A) :
  exists m, max_by key (x :: l) = Some m /\ first_max key (x :: l) m.
Proof.
  exists (max_from key x l). split; [reflexivity|].
  apply (max_from_first l [] x []); constructor.
Qed.

(** [min] returns the first element with the least key. *)
Lemma min_by_first (x : A) (l : list A) :
  exists m, min_by key (x :: l) = Some m /\ first_min key (x :: l) m.
Proof.
  exists (min_from key x l). split; [reflexivity|].
  apply (min_from_first l [] x []); constructor.
Qed.

End Extremum.

(** The insights of a report with at least one review show the first
    review of greatest stored polarity and the first of least. *)
Lemma insights_extremal float_of_str rows res :
  analyze float_of_str rows = inr res ->
  (0 < total_reviews res)%Z ->
  exists ins top bottom,
    insights res = Some ins
    /\ first_max polarity (reviews res) top
    /\ first_min polarity (reviews res) bottom
    /\ most_positive_review ins = Some (snapshot_of top)
    /\ most_negative_review ins = Some (snapshot_of bottom)
    /\ Forall well_scored (reviews res).
Proof.
  intros E Hpos. destruct (analyze_inr _ _ _ E) as (a & Ea & Eres).
  destruct (loop_total _ _ _ Ea) as (_ & Hw & _).
  destruct (finish_fields a) as (Ftot & _ & Frev & _ & _ & Fins).
  rewrite <- Eres in Ftot, Frev, Fins. rewrite Ftot in Hpos.
  rewrite Fins. unfold generate_insights. rewrite Ftot, Frev.
  assert (Hz : (len (acc_reviews a) =? 0)%Z = false) by (apply Z.eqb_neq; lia).
  rewrite Hz.
  destruct (acc_reviews a) as [|x l] eqn:Erev; [cbn in Hpos; lia|].
  destruct (max_by_first polarity x l) as (top & Etop & Htop).
  destruct (min_by_first polarity x l) as (bottom & Ebot & Hbot).
  eexists _, top, bottom. split; [reflexivity|].
  cbn [most_positive_review most_negative_review].
  rewrite Etop, Ebot. cbn [option_map]. tauto.
Qed.

Lemma prefix_short (n : nat) (s : str) : (length s <= n)%nat -> prefix n s = s.
Proof. intros H. unfold prefix. now apply firstn_all2. Qed.

(** C6. With at least one scored review, the most positive review of the
    insights is the first review, in input order, whose polarity (the
    [polarity] field of the scored review) is the greatest, the most
    negative one is the first whose polarity is the least, and each
    snapshot holds the polarity of its review and the first 100 characters
    of its text followed by "...", also when the text has 100 characters or
    fewer. *)
Theorem extremal_reviews
    (float_of_str : str -> option pyfloat) (rows : list row) (res : results_t) :
  analyze float_of_str rows = inr res ->
  (0 < total_reviews res)%Z ->
  exists ins top bottom,
    insights res = Some ins
    /\ first_max polarity (reviews res) top
    /\ first_min polarity (reviews res) bottom
    /\ most_positive_review ins
       = Some {| text := firstn 100 (review_text top) ++ lit "...";
                 snapshot_polarity := polarity top |}
    /\ most_negative_review ins
       = Some {| text := firstn 100 (review_text bottom) ++ lit "...";
                 snapshot_polarity := polarity bottom |}
    /\ ((length (review_text top) <= 100)%nat ->
        option_map text (most_positive_review ins)
        = Some (review_text top ++ lit "..."))
    /\ ((length (review_text bottom) <= 100)%nat ->
        option_map text (most_negative_review ins)
        = Some (review_text bottom ++ lit "...")).
Proof.
  intros E Hpos.
  destruct (insights_extremal _ _ _ E Hpos)
    as (ins & top & bottom & Ei & Ht & Hb & Etop & Ebot & _).
  exists ins, top, bottom. rewrite Etop, Ebot.
  repeat split; try assumption.
  - intros Hlen. cbn [option_map snapshot_of text]. unfold ellipsis.
    now rewrite (prefix_short _ _ Hlen).
  - intros Hlen. cbn [option_map snapshot_of text]. unfold ellipsis.
    now rewrite (prefix_short _ _ Hlen).
Qed.

Lemma extremal_reviews_witness :
  analyze float_of_digits four_reviews = inr four_report
  /\ (0 < total_reviews four_report)%Z
  /\ exists ins top bottom,
       insights four_report = Some ins
       /\ first_max polarity (reviews four_report) top
       /\ first_min polarity (reviews four_report) bottom
       /\ most_positive_review ins
          = Some {| text := firstn 100 (review_text top) ++ lit "...";
                    snapshot_polarity := polarity top |}
       /\ most_negative_review ins
          = Some {| text := firstn 100 (review_text bottom) ++ lit "...";
                    snapshot_polarity := polarity bottom |}
       /\ ((length (review_text top) <= 100)%nat ->
           option_map text (most_positive_review ins)
           = Some (review_text top ++ lit "..."))
       /\ ((length (review_text bottom) <= 100)%nat ->
           option_map text (most_negative_review ins)
           = Some (review_text bottom ++ lit "...")).
Proof.
  split; [vm_compute; reflexivity|]. split; [reflexivity|].
  apply (extremal_reviews float_of_digits four_reviews four_report);
    vm_compute; reflexivity.
Defined.





(** ** The frequency table *)

Module CounterFacts.

Import Counter.

Lemma eqb_sym (a b : str) : Str.eqb a b = Str.eqb b a.
Proof.
  destruct (Str.eqb a b) eqn:E.
  - apply eqb_eq in E. subst. symmetry. apply eqb_refl.
  - symmetry. apply eqb_neq. apply eqb_neq in E. congruence.
Qed.

Lemma add_keys w c :
  keys (add w c) = if mem w (keys c) then keys c else keys c ++ [w].
Proof.
  unfold mem. induction c as [|[k n] c IH]; [reflexivity|].
  cbn [add keys map fst existsb]. rewrite (eqb_sym w k).
  destruct (Str.eqb k w) eqn:E; cbn [orb map fst]; [reflexivity|].
  fold (keys (add w c)). rewrite IH. fold (keys c).
  now destruct (existsb (Str.eqb w) (keys c)).
Qed.

Ltac eqb_prop :=
  repeat match goal with
         | H : Str.eqb _ _ = true |- _ => apply eqb_eq in H
         | H : Str.eqb _ _ = false |- _ => apply eqb_neq in H
         end.

Lemma count_add w c v :
  count (add w c) v = (count c v + (if Str.eqb v w then 1 else 0))%Z.
Proof.
  induction c as [|[k n] c IH]; cbn [add count].
  - destruct (Str.eqb w v) eqn:E1, (Str.eqb v w) eqn:E2;
      try lia; eqb_prop; congruence.
  - destruct (Str.eqb k w) eqn:Ekw; cbn [count].
    + destruct (Str.eqb k v) eqn:E1, (Str.eqb v w) eqn:E2;
        try lia; eqb_prop; congruence.
    + rewrite IH.
      destruct (Str.eqb k v) eqn:E1, (Str.eqb v w) eqn:E2;
        try lia; eqb_prop; congruence.
Qed.

Lemma occurrences_snoc v l w :
  occurrences v (l ++ [w])
  = (occurrences v l + (if Str.eqb v w then 1 else 0))%Z.
Proof.
  unfold occurrences. rewrite filter_app, len_app. cbn [filter].
  destruct (Str.eqb v w); cbn; lia.
Qed.

Lemma first_index_app k l l' :
  In k l -> first_index k (l ++ l') = first_index k l.
Proof.
  induction l as [|x l IH]; [contradiction|]. intros Hin. cbn [app first_index].
  destruct (Str.eqb x k) eqn:E; [reflexivity|].
  f_equal. apply IH. destruct Hin as [->|H]; [|exact H].
  rewrite eqb_refl in E. discriminate E.
Qed.

Lemma first_index_lt k l : In k l -> (first_index k l < length l)%nat.
Proof.
  induction l as [|x l IH]; [contradiction|]. intros Hin. cbn [first_index length].
  destruct (Str.eqb x k) eqn:E; [lia|].
  apply -> Nat.succ_lt_mono. apply IH. destruct Hin as [->|H]; [|exact H].
  rewrite eqb_refl in E. discriminate E.
Qed.

Lemma first_index_new k l : ~ In k l -> first_index k (l ++ [k]) = length l.
Proof.
  induction l as [|x l IH]; intros Hn; cbn [app first_index length].
  - now rewrite eqb_refl.
  - destruct (Str.eqb x k) eqn:E.
    + apply eqb_eq in E. subst. exfalso. apply Hn. now left.
    + f_equal. apply IH. intros H. apply Hn. now right.
Qed.

Lemma sorted_snoc (l : list nat) (n : nat) :
  StronglySorted lt l -> Forall (fun x => (x < n)%nat) l ->
  StronglySorted lt (l ++ [n]).
Proof.
  induction 1 as [|x l Hs IH Hx]; intros Hall; cbn [app].
  - repeat constructor.
  - inversion Hall; subst. constructor; [auto|].
    apply Forall_app. split; [exact Hx | now repeat constructor].
Qed.

Lemma sorted_lt_NoDup (l : list nat) : StronglySorted lt l -> NoDup l.
Proof.
  induction 1 as [|x l Hs IH Hx]; constructor; [|exact IH].
  intros Hin. rewrite Forall_forall in Hx. specialize (Hx x Hin). lia.
Qed.

Lemma counts_nil : counts [] [].
Proof. split; cbn; [tauto | reflexivity | constructor]. Qed.

Lemma counts_add c l w : counts c l -> counts (add w c) (l ++ [w]).
Proof.
  intros [Hk Hv Ho].
  assert (Hsame : map (fun k => first_index k (l ++ [w])) (keys c)
                  = map (fun k => first_index k l) (keys c)).
  { apply map_ext_in. intros k Hin. apply first_index_app. now apply Hk. }
  split.
  - intros x. rewrite add_keys, in_app_iff. cbn [In].
    destruct (mem w (keys c)) eqn:Hm.
    + apply mem_In in Hm. rewrite Hk. split; [tauto|].
      intros [H|[<-|[]]]; [exact H | now apply Hk].
    + rewrite in_app_iff, Hk. cbn [In]. tauto.
  - intros v. now rewrite count_add, occurrences_snoc, Hv.
  - rewrite add_keys. destruct (mem w (keys c)) eqn:Hm.
    + now rewrite Hsame.
    + rewrite map_app, Hsame. cbn [map].
      assert (Hnew : ~ In w l).
      { intros H. apply Hk, mem_In in H. congruence. }
      rewrite (first_index_new w l Hnew).
      apply sorted_snoc; [exact Ho|].
      apply Forall_forall. intros n Hn. apply in_map_iff in Hn as (k & <- & Hin).
      apply first_index_lt. now apply Hk.
Qed.

Lemma counts_fold l : forall c done,
  counts c done -> counts (fold_left (fun c w => add w c) l c) (done ++ l).
Proof.
  induction l as [|w l IH]; intros c done H; cbn [fold_left].
  - now rewrite app_nil_r.
  - replace (done ++ w :: l) with ((done ++ [w]) ++ l)
      by (rewrite <- app_assoc; reflexivity).
    apply IH. now apply counts_add.
Qed.

Lemma Counter_counts (ws : list str) : counts (Counter ws) ws.
Proof. apply (counts_fold ws [] []), counts_nil. Qed.

Lemma counts_NoDup c l : counts c l -> NoDup (keys c).
Proof.
  intros [_ _ Ho]. apply sorted_lt_NoDup in Ho. eapply NoDup_map_inv; eauto.
Qed.

Lemma count_of_entry c : NoDup (keys c) ->
  forall e, In e c -> count c (fst e) = snd e.
Proof.
  induction c as [|[k n] c IH]; intros Hnd e Hin; [contradiction|].
  cbn [keys map fst] in Hnd. inversion Hnd as [|? ? Hk Hnd']; subst.
  cbn [count]. destruct Hin as [<-|Hin].
  - cbn [fst snd]. now rewrite eqb_refl.
  - destruct (Str.eqb k (fst e)) eqn:E.
    + apply eqb_eq in E. subst k. exfalso. apply Hk. now apply in_map.
    + now apply IH.
Qed.


Lemma insert_perm x l : Permutation (insert x l) (x :: l).
Proof.
  induction l as [|y l IH]; cbn [insert]; [reflexivity|].
  destruct (snd x <? snd y)%Z; [|reflexivity].
  rewrite IH. apply perm_swap.
Qed.

Lemma sorted_desc_perm c : Permutation (sorted_desc c) c.
Proof.
  induction c as [|x c IH]; [reflexivity|].
  cbn [sorted_desc fold_right]. fold (sorted_desc c).
  rewrite insert_perm. now constructor.
Qed.

Section Ranking.

Variable ws : list str.

(** An entry met before all the entries of a ranked list keeps the list
    ranked when it is inserted. *)
Lemma insert_ranked x l :
  StronglySorted (ranked_before ws) l ->
  Forall (fun y => (met ws x < met ws y)%nat) l ->
  StronglySorted (ranked_before ws) (insert x l).
Proof.
  induction 1 as [|y l Hs IH Hy]; intros Hx; cbn [insert].
  - repeat constructor.
  - inversion Hx as [|? ? Hxy Hxl]; subst.
    destruct (snd x <? snd y)%Z eqn:E.
    + apply Z.ltb_lt in E. constructor; [auto|].
      rewrite (insert_perm x l). constructor; [|exact Hy].
      now left.
    + apply Z.ltb_ge in E. constructor; [now constructor|].
      constructor.
      * unfold ranked_before. unfold met in Hxy. lia.
      * rewrite Forall_forall in *. intros z Hz.
        specialize (Hy z Hz). specialize (Hxl z Hz).
        unfold ranked_before in *. unfold met in Hxl. lia.
Qed.

Lemma sorted_desc_ranked c :
  StronglySorted (fun a b => (met ws a < met ws b)%nat) c ->
  StronglySorted (ranked_before ws) (sorted_desc c).
Proof.
  induction 1 as [|x c Hs IH Hx]; [constructor|].
  cbn [sorted_desc fold_right]. fold (sorted_desc c).
  apply insert_ranked; [exact IH|].
  now rewrite (sorted_desc_perm c).
Qed.

End Ranking.

Lemma sorted_map {A : Type} (f : A -> nat) (l : list A) :
  StronglySorted lt (map f l) ->
  StronglySorted (fun a b => (f a < f b)%nat) l.
Proof.
  induction l as [|x l IH]; [constructor|]. cbn [map].
  intros H. inversion H as [|? ? Hs Hx]; subst.
  constructor; [auto|].
  rewrite Forall_forall in *. intros y Hy. apply Hx. now apply in_map.
Qed.

Lemma sorted_firstn {A : Type} (R : A -> A -> Prop) (n : nat) (l : list A) :
  StronglySorted R l -> StronglySorted R (firstn n l).
Proof.
  intros H. revert n. induction H as [|x l Hs IH Hx]; intros [|n]; cbn [firstn];
    try constructor; auto.
  rewrite Forall_forall in *. intros y Hy. apply Hx.
  rewrite <- (firstn_skipn n l). apply in_or_app. now left.
Qed.

Lemma sorted_split {A : Type} (R : A -> A -> Prop) (l1 l2 : list A) :
  StronglySorted R (l1 ++ l2) ->
  Forall (fun a => Forall (R a) l2) l1.
Proof.
  induction l1 as [|x l1 IH]; cbn [app]; intros H; [constructor|].
  inversion H as [|? ? Hs Hx]; subst. constructor; [|auto].
  apply Forall_app in Hx. tauto.
Qed.

(** The ranking of the counted words. *)
Lemma Counter_ranked (ws : list str) :
  let ranked := sorted_desc (Counter ws) in
  Permutation ranked (Counter ws)
  /\ StronglySorted (ranked_before ws) ranked
  /\ NoDup (keys ranked)
  /\ (forall e, In e ranked ->
                In (fst e) ws /\ snd e = occurrences (fst e) ws)
  /\ (forall w, In w ws -> In (w, occurrences w ws) ranked)
  /\ length ranked = length (distinct ws).
Proof.
  cbv zeta. pose proof (Counter_counts ws) as Hc.
  pose proof (counts_NoDup _ _ Hc) as Hnd.
  destruct Hc as [Hk Hv Ho].
  pose proof (sorted_desc_perm (Counter ws)) as Hp.
  assert (Hentry : forall e, In e (Counter ws) ->
                     In (fst e) ws /\ snd e = occurrences (fst e) ws).
  { intros e He. split.
    - apply Hk. unfold keys. now apply in_map.
    - rewrite <- Hv. symmetry. now apply count_of_entry. }
  split; [exact Hp|]. split; [|split; [|split; [|split]]].
  - apply sorted_desc_ranked. apply sorted_map.
    unfold keys in Ho. rewrite map_map in Ho. exact Ho.
  - unfold keys. eapply Permutation_NoDup; [|exact Hnd].
    apply Permutation_map. now symmetry.
  - intros e He. apply Hentry. eapply Permutation_in; eauto.
  - intros w Hw. apply Hk in Hw. unfold keys in Hw.
    apply in_map_iff in Hw as ([k n] & <- & Hin). cbn [fst].
    destruct (Hentry _ Hin) as [_ E]. cbn [fst snd] in E. subst n.
    eapply Permutation_in; [symmetry|]; eauto.
  - rewrite (Permutation_length Hp).
    rewrite <- (length_map fst). fold (keys (Counter ws)).
    apply Permutation_length. apply NoDup_Permutation; [exact Hnd| |].
    + apply NoDup_nodup.
    + intros w. unfold distinct. rewrite nodup_In. apply Hk.
Qed.

End CounterFacts.

Import CounterFacts.

Lemma report_words float_of_str rows res :
  analyze float_of_str rows = inr res ->
  most_common (word_analysis res)
  = firstn 10 (Counter.sorted_desc (Counter.Counter (qualifying_words rows))).
Proof.
  intros E. destruct (analyze_inr _ _ _ E) as (a & Ea & Eres).
  destruct (loop_total _ _ _ Ea) as (_ & _ & _ & _ & _ & Hw).
  destruct (finish_fields a) as (_ & _ & _ & Fmc & _).
  rewrite <- Eres in Fmc. rewrite Fmc, Hw. reflexivity.
Qed.

Lemma qualifying_word rows w :
  In w (qualifying_words rows) ->
  (3 < length w)%nat
  /\ exists r, In r (retained rows) /\ In w (tokens (text_of r)).
Proof.
  unfold qualifying_words. intros H.
  apply in_flat_map in H as (r & Hr & Hw).
  apply filter_In in Hw as [Hw Hlen]. apply Nat.ltb_lt in Hlen.
  split; [exact Hlen|]. now exists r.
Qed.

(** C5. The list [most_common] of the word analysis has at most 10
    entries, and exactly as many as there are distinct qualifying words
    when these are fewer than 10.  Its words are tokens, longer than 3
    characters, of the normalized text of retained reviews, each listed once
    with its number of occurrences.  The entries stand in non-increasing
    order of count, entries of equal count in the order in which their
    words were first met, and every qualifying word that is not listed
    ranks after all the listed ones. *)
Theorem most_common_words
    (float_of_str : str -> option pyfloat) (rows : list row) (res : results_t) :
  analyze float_of_str rows = inr res ->
  let ws := qualifying_words rows in
  let listed := most_common (word_analysis res) in
  (length listed <= 10)%nat
  /\ length listed = Nat.min 10 (length (distinct ws))
  /\ (forall w, In w ws ->
        (3 < length w)%nat
        /\ exists r, In r (retained rows) /\ In w (tokens (text_of r)))
  /\ Forall (fun e => In (fst e) ws /\ snd e = occurrences (fst e) ws) listed
  /\ NoDup (map fst listed)
  /\ StronglySorted (ranked_before ws) listed
  /\ (forall w, In w ws -> ~ In w (map fst listed) ->
        Forall (fun e => ranked_before ws e (w, occurrences w ws)) listed).
Proof.
  intros E. cbv zeta. rewrite (report_words _ _ _ E).
  set (ws := qualifying_words rows).
  destruct (Counter_ranked ws) as (_ & Hs & Hnd & Hin & Hall & Hlen).
  set (ranked := Counter.sorted_desc (Counter.Counter ws)) in *.
  assert (Hsub : forall e, In e (firstn 10 ranked) -> In e ranked).
  { intros e He. rewrite <- (firstn_skipn 10 ranked). apply in_or_app. now left. }
  split; [apply firstn_le_length|].
  split; [now rewrite length_firstn, Hlen|].
  split; [intros w Hw; now apply qualifying_word|].
  split; [apply Forall_forall; intros e He; apply Hin, Hsub, He|].
  split.
  { rewrite <- firstn_map. unfold Counter.keys in Hnd.
    rewrite <- (firstn_skipn 10 (map fst ranked)) in Hnd.
    now apply NoDup_app_remove_r in Hnd. }
  split; [now apply sorted_firstn|].
  intros w Hw Hout.
  pose proof (Hall w Hw) as Hr. rewrite <- (firstn_skipn 10 ranked) in Hr.
  apply in_app_or in Hr as [Hr|Hr].
  - exfalso. apply Hout. apply in_map_iff. now exists (w, occurrences w ws).
  - rewrite <- (firstn_skipn 10 ranked) in Hs.
    apply sorted_split in Hs. eapply Forall_impl; [|exact Hs].
    intros e He. cbv beta in He. rewrite Forall_forall in He. now apply He.
Qed.

Lemma most_common_words_witness :
  analyze float_of_digits four_reviews = inr four_report
  /\ map (fun e => (string_of_list_ascii (fst e), snd e))
         (most_common (word_analysis four_report))
     = [ ("great", 1); ("sound", 1); ("love", 1); ("terrible", 1);
         ("battery", 1); ("arrived", 1); ("tuesday", 1); ("excellent", 1);
         ("quality", 1); ("fast", 1) ]%string%Z
  /\ let ws := qualifying_words four_reviews in
     let listed := most_common (word_analysis four_report) in
     (length listed <= 10)%nat
     /\ length listed = Nat.min 10 (length (distinct ws))
     /\ (forall w, In w ws ->
           (3 < length w)%nat
           /\ exists r, In r (retained four_reviews)
                        /\ In w (tokens (text_of r)))
     /\ Forall (fun e => In (fst e) ws /\ snd e = occurrences (fst e) ws) listed
     /\ NoDup (map fst listed)
     /\ StronglySorted (ranked_before ws) listed
     /\ (forall w, In w ws -> ~ In w (map fst listed) ->
           Forall (fun e => ranked_before ws e (w, occurrences w ws)) listed).
Proof.
  split; [vm_compute; reflexivity|].
  split; [vm_compute; reflexivity|].
  apply (most_common_words float_of_digits four_reviews four_report).
  vm_compute; reflexivity.
Defined.

(** Counts 3, 2, 1 and 1: the two words met once stand in the order in
    which they were met, and "it" is too short to be counted. *)
Example most_common_ranking :
  option_map
    (fun res => map (fun e => (string_of_list_ascii (fst e), snd e))
                    (most_common (word_analysis res)))
    (returned
       (analyze_reviews float_of_digits
          (inr [ plain "W1" (lit "Beta alpha gamma it alpha beta");
                 plain "W2" (lit "delta it BETA") ])))
  = Some [ ("beta", 3); ("alpha", 2); ("gamma", 1); ("delta", 1) ]%string%Z.
Proof. vm_compute; reflexivity. Qed.

(** * Further properties of the code *)

(** ** The normalizer and the scorer *)

Lemma lower_char_fixed c :
  is_lower c = true \/ c = space -> lower_char c = c.
Proof.
  intros [H| ->]; [|reflexivity].
  destruct c as [[] [] [] [] [] [] [] []]; vm_compute in H |- *;
    first [reflexivity | discriminate H].
Qed.

Lemma kept_if_clean c :
  is_lower c = true \/ c = space -> is_alpha c || isspace c = true.
Proof.
  intros [H| ->]; [|reflexivity]. unfold is_alpha. now rewrite H.
Qed.


Lemma map_fixed {A : Type} (f : A -> A) (l : list A) :
  Forall (fun x => f x = x) l -> map f l = l.
Proof. induction 1 as [|x l Hx _ IH]; cbn [map]; congruence. Qed.

Lemma filter_all {A : Type} (f : A -> bool) (l : list A) :
  Forall (fun x => f x = true) l -> filter f l = l.
Proof.
  induction 1 as [|x l Hx _ IH]; cbn [filter]; [reflexivity|].
  rewrite Hx. congruence.
Qed.

(** The characters of a cleaned text. *)
Lemma clean_text_chars t :
  Forall (fun c => is_lower c = true \/ c = space) (clean_text (Some t)).
Proof.
  rewrite clean_text_some. apply Forall_forall. intros c Hc.
  destruct (join_chars c _ Hc) as [->|(w & Hw & Hcw)]; [now right|].
  left. eapply cleaned_token_chars; eauto.
Qed.

(** Cleaning a cleaned text changes nothing. *)
Lemma clean_text_again t :
  clean_text (Some (clean_text (Some t))) = clean_text (Some t).
Proof.
  pose proof (clean_text_chars t) as Hc.
  rewrite (clean_text_some (clean_text (Some t))).
  unfold lower. rewrite (map_fixed lower_char).
  2:{ eapply Forall_impl; [|exact Hc]. intros c. apply lower_char_fixed. }
  unfold strip_special. rewrite filter_all.
  2:{ eapply Forall_impl; [|exact Hc]. intros c. apply kept_if_clean. }
  rewrite (clean_text_some t) at 1.
  rewrite split_join by apply split_tokens.
  symmetry. apply clean_text_some.
Qed.

(** The scorer reads its text through [clean_text] only. *)
Lemma calculate_sentiment_clean t1 t2 :
  clean_text (Some t1) = clean_text (Some t2) ->
  calculate_sentiment t1 = calculate_sentiment t2.
Proof. unfold calculate_sentiment. now intros ->. Qed.

(** X1. [clean_text] is idempotent, and the scorer gives a cleaned text the
    scores of the original. *)
Theorem clean_text_idempotent (t : str) :
  clean_text (Some (clean_text (Some t))) = clean_text (Some t)
  /\ calculate_sentiment (clean_text (Some t)) = calculate_sentiment t.
Proof.
  split; [apply clean_text_again|].
  apply calculate_sentiment_clean, clean_text_again.
Qed.






(** ** What the scores say about the words *)

Lemma scorer_unfold t :
  calculate_sentiment t
  = match tokens t with
    | [] => (0, 0, neutral)
    | _ :: _ =>
        let p := hits positive_words (tokens t) in
        let q := hits negative_words (tokens t) in
        let polarity :=
          if (p + q =? 0)%Z then 0 else truediv (p - q) (len (tokens t)) in
        (polarity, truediv (p + q) (len (tokens t)),
         if Qlt_bool (1 # 10) polarity then positive
         else if Qlt_bool polarity (- (1 # 10)) then negative
         else neutral)
    end.
Proof.
  unfold calculate_sentiment. fold (tokens t).
  destruct (tokens t); [reflexivity|]. now rewrite !count_in_hits.
Qed.

(** X3. The subjectivity of a text is 0 exactly when none of its tokens is
    in a lexicon, and then the polarity is 0 and the label is neutral. *)
Theorem no_sentiment_word_is_neutral (t : str) :
  (raw_subjectivity t == 0
   <-> (count_in positive_words (tokens t)
        + count_in negative_words (tokens t) = 0)%Z)
  /\ ((count_in positive_words (tokens t)
       + count_in negative_words (tokens t) = 0)%Z ->
      raw_polarity t = 0 /\ label_of t = neutral).
Proof.
  unfold raw_subjectivity, raw_polarity, label_of.
  rewrite scorer_unfold, !count_in_hits.
  pose proof (hits_nonneg positive_words (tokens t)) as Hp.
  pose proof (hits_nonneg negative_words (tokens t)) as Hq.
  destruct (tokens t) as [|w ws] eqn:E.
  - cbn. split; [split; [reflexivity | intros _; reflexivity] | tauto].
  - destruct (len_pos_cons w ws) as (k & Hk). rewrite Hk.
    cbv zeta. cbn [fst snd]. rewrite truediv_pos. split.
    + unfold Qeq. cbn [Qnum Qden]. split; intros H; lia.
    + intros H. apply Z.eqb_eq in H. rewrite H. split; reflexivity.
Qed.

(** X4. The label in whole numbers: a text is positive exactly when its
    positive hits exceed its negative hits by more than a tenth of its
    number of tokens, and negative exactly in the mirrored case; so equal
    counts always give a neutral text. *)
Theorem label_from_counts (t : str) :
  let n := len (tokens t) in
  let p := count_in positive_words (tokens t) in
  let q := count_in negative_words (tokens t) in
  (label_of t = positive <-> (n < 10 * (p - q))%Z)
  /\ (label_of t = negative <-> (n < 10 * (q - p))%Z)
  /\ (p = q -> label_of t = neutral).
Proof.
  cbv zeta. unfold label_of. rewrite scorer_unfold, !count_in_hits.
  pose proof (hits_nonneg positive_words (tokens t)) as Hp.
  pose proof (hits_nonneg negative_words (tokens t)) as Hq.
  destruct (tokens t) as [|w ws] eqn:E.
  - cbn. repeat split; try discriminate; try lia; intros; reflexivity.
  - destruct (len_pos_cons w ws) as (k & Hk). rewrite Hk.
    set (p := hits positive_words (w :: ws)) in *.
    set (q := hits negative_words (w :: ws)) in *.
    cbv zeta. cbn [snd].
    assert (Hpol : forall pol : Q,
      pol = (if (p + q =? 0)%Z then 0 else truediv (p - q) (Z.pos k)) ->
      (1 # 10 < pol <-> (Z.pos k < 10 * (p - q))%Z)
      /\ (pol < - (1 # 10) <-> (Z.pos k < 10 * (q - p))%Z)).
    { intros pol ->. destruct (p + q =? 0)%Z eqn:Ez.
      - apply Z.eqb_eq in Ez. unfold Qlt, Qopp. cbn [Qnum Qden].
        split; split; intros; lia.
      - rewrite truediv_pos. change (1 * k)%positive with k.
        unfold Qlt, Qopp. cbn [Qnum Qden].
        split; split; intros; lia. }
    destruct (Hpol _ eq_refl) as [Hpos Hneg].
    set (pol := if (p + q =? 0)%Z then 0 else truediv (p - q) (Z.pos k)) in *.
    destruct (Qlt_bool (1 # 10) pol) eqn:B1.
    + apply Qlt_bool_iff in B1. apply Hpos in B1.
      repeat split; try discriminate; try tauto; intros; lia.
    + apply Qlt_bool_false in B1.
      assert (N1 : ~ (Z.pos k < 10 * (p - q))%Z).
      { intros H. apply Hpos in H. exact (Qlt_not_le _ _ H B1). }
      destruct (Qlt_bool pol (- (1 # 10))) eqn:B2.
      * apply Qlt_bool_iff in B2. apply Hneg in B2.
        repeat split; try discriminate; try tauto; intros; lia.
      * apply Qlt_bool_false in B2.
        assert (N2 : ~ (Z.pos k < 10 * (q - p))%Z).
        { intros H. apply Hneg in H. exact (Qlt_not_le _ _ H B2). }
        repeat split; try discriminate; try tauto; intros; lia.
Qed.

(** ** Rounding keeps whole bounds *)

Module RoundFacts.

Lemma round_half_even_lower (y : Q) (m : Z) :
  inject_Z m <= y -> (m <= round_half_even y)%Z.
Proof.
  destruct y as [n d]. unfold Qle, round_half_even. cbn [Qnum Qden inject_Z].
  intros H.
  assert (Hq : (m <= n / Z.pos d)%Z) by (apply Z.div_le_lower_bound; lia).
  destruct (2 * (n mod Z.pos d) ?= Z.pos d)%Z; [|lia|lia].
  destruct (Z.even (n / Z.pos d)); lia.
Qed.

Lemma round_half_even_upper (y : Q) (m : Z) :
  y <= inject_Z m -> (round_half_even y <= m)%Z.
Proof.
  destruct y as [n d]. unfold Qle, round_half_even. cbn [Qnum Qden inject_Z].
  intros H.
  pose proof (Z.div_mod n (Z.pos d) ltac:(lia)) as Hdm.
  pose proof (Z.mod_pos_bound n (Z.pos d) ltac:(lia)) as Hr.
  assert (Hq : (n / Z.pos d <= m)%Z) by (apply Z.div_le_upper_bound; lia).
  destruct (Z.eq_dec (n / Z.pos d) m) as [Em|Nm].
  - assert (Hz : (n mod Z.pos d = 0)%Z) by nia.
    rewrite Hz. cbn [Z.mul]. destruct (0 ?= Z.pos d)%Z eqn:C; try lia.
    + apply Z.compare_eq in C. lia.
    + apply Z.compare_gt_iff in C. lia.
  - destruct (2 * (n mod Z.pos d) ?= Z.pos d)%Z; [|lia|lia].
    destruct (Z.even (n / Z.pos d)); lia.
Qed.

Lemma scale_pos (nd : nat) : exists s, (10 ^ Z.of_nat nd)%Z = Z.pos s.
Proof.
  pose proof (Z.pow_pos_nonneg 10 (Z.of_nat nd) ltac:(lia) ltac:(lia)) as H.
  destruct (10 ^ Z.of_nat nd)%Z as [|s|s]; try lia. now exists s.
Qed.

(** [round] never leaves an interval with whole ends. *)
Lemma round_between (x : Q) (nd : nat) (lo hi : Z) :
  inject_Z lo <= x -> x <= inject_Z hi ->
  inject_Z lo <= round x nd /\ round x nd <= inject_Z hi.
Proof.
  intros Hlo Hhi. unfold round. rewrite Qred_correct.
  destruct (scale_pos nd) as (s & Es). rewrite Es.
  assert (H1 : inject_Z (lo * Z.pos s) <= x * inject_Z (Z.pos s)).
  { rewrite inject_Z_mult. apply Qmult_le_compat_r; [exact Hlo|]. discriminate. }
  assert (H2 : x * inject_Z (Z.pos s) <= inject_Z (hi * Z.pos s)).
  { rewrite inject_Z_mult. apply Qmult_le_compat_r; [exact Hhi|]. discriminate. }
  apply round_half_even_lower in H1. apply round_half_even_upper in H2.
  set (k := round_half_even (x * inject_Z (Z.pos s))) in *.
  change (inject_Z k / inject_Z (Z.pos s)) with (k * 1 # 1 * s).
  unfold Qle. cbn [Qnum Qden inject_Z]. split; nia.
Qed.




Lemma round_half_even_floor (y : Q) :
  (Qnum y / Z.pos (Qden y) <= round_half_even y
   <= Qnum y / Z.pos (Qden y) + 1)%Z.
Proof.
  unfold round_half_even.
  destruct (2 * (Qnum y mod Z.pos (Qden y)) ?= Z.pos (Qden y))%Z; [|lia|lia].
  destruct (Z.even (Qnum y / Z.pos (Qden y))); lia.
Qed.

Lemma round_half_even_mono (y1 y2 : Q) :
  y1 <= y2 -> (round_half_even y1 <= round_half_even y2)%Z.
Proof.
  destruct y1 as [n1 d1], y2 as [n2 d2]. unfold Qle, round_half_even.
  cbn [Qnum Qden]. intros H.
  pose proof (Z.div_mod n1 (Z.pos d1) ltac:(lia)) as E1.
  pose proof (Z.mod_pos_bound n1 (Z.pos d1) ltac:(lia)) as B1.
  pose proof (Z.div_mod n2 (Z.pos d2) ltac:(lia)) as E2.
  pose proof (Z.mod_pos_bound n2 (Z.pos d2) ltac:(lia)) as B2.
  set (q1 := (n1 / Z.pos d1)%Z) in *. set (r1 := (n1 mod Z.pos d1)%Z) in *.
  set (q2 := (n2 / Z.pos d2)%Z) in *. set (r2 := (n2 mod Z.pos d2)%Z) in *.
  clearbody q1 r1 q2 r2.
  destruct (Z.eq_dec q1 q2) as [->|Hne].
  - assert (Hr : (r1 * Z.pos d2 <= r2 * Z.pos d1)%Z) by (subst n1 n2; nia).
    destruct (Z.compare_spec (2 * r1) (Z.pos d1)) as [C1|C1|C1];
      destruct (Z.compare_spec (2 * r2) (Z.pos d2)) as [C2|C2|C2];
      try (destruct (Z.even q2)); try lia; exfalso; nia.
  - assert (Hlt : (q1 < q2)%Z).
    { destruct (Z.lt_ge_cases q1 q2) as [Hlt|Hge]; [exact Hlt|]. exfalso.
      assert (H1 : (Z.pos d1 * Z.pos d2 * (q2 + 1)
                    <= Z.pos d1 * Z.pos d2 * q1)%Z)
        by (apply Z.mul_le_mono_nonneg_l; lia).
      subst n1 n2. nia. }
    destruct (2 * r1 ?= Z.pos d1)%Z, (2 * r2 ?= Z.pos d2)%Z;
      try (destruct (Z.even q1)); try (destruct (Z.even q2)); lia.
Qed.

(** [round] is monotone. *)
Lemma round_mono (x y : Q) (nd : nat) : x <= y -> round x nd <= round y nd.
Proof.
  intros H. unfold round. rewrite !Qred_correct.
  destruct (scale_pos nd) as (s & Es). rewrite Es.
  assert (H1 : x * inject_Z (Z.pos s) <= y * inject_Z (Z.pos s)).
  { apply Qmult_le_compat_r; [exact H|]. discriminate. }
  apply round_half_even_mono in H1.
  set (k1 := round_half_even (x * inject_Z (Z.pos s))) in *.
  set (k2 := round_half_even (y * inject_Z (Z.pos s))) in *.
  change (inject_Z k1 / inject_Z (Z.pos s)) with (k1 * 1 # 1 * s).
  change (inject_Z k2 / inject_Z (Z.pos s)) with (k2 * 1 # 1 * s).
  unfold Qle. cbn [Qnum Qden]. nia.
Qed.

Lemma round_half_even_opp (y : Q) :
  round_half_even (- y) = (- round_half_even y)%Z.
Proof.
  destruct y as [n d]. unfold round_half_even, Qopp. cbn [Qnum Qden].
  pose proof (Z.div_mod n (Z.pos d) ltac:(lia)) as E1.
  pose proof (Z.mod_pos_bound n (Z.pos d) ltac:(lia)) as B1.
  pose proof (Z.div_mod (- n) (Z.pos d) ltac:(lia)) as E2.
  pose proof (Z.mod_pos_bound (- n) (Z.pos d) ltac:(lia)) as B2.
  set (q := (n / Z.pos d)%Z) in *. set (r := (n mod Z.pos d)%Z) in *.
  set (q' := (- n / Z.pos d)%Z) in *. set (r' := (- n mod Z.pos d)%Z) in *.
  clearbody q r q' r'.
  assert (Hk : (Z.pos d * (q + q') = - (r + r'))%Z) by lia.
  assert (Hk2 : (q + q' = 0 \/ q + q' = -1)%Z) by nia.
  assert (Hcases : (r = 0 /\ r' = 0 /\ q' = - q)%Z
                   \/ (0 < r /\ r' = Z.pos d - r /\ q' = - q - 1)%Z).
  { destruct Hk2 as [Hk2|Hk2]; rewrite Hk2 in Hk; [left|right]; lia. }
  destruct Hcases as [(Hr & Hr' & Hq)|(Hr & Hr' & Hq)]; rewrite Hr', Hq.
  - rewrite Hr. cbn [Z.mul].
    destruct (Z.compare_spec 0 (Z.pos d)); lia.
  - destruct (Z.compare_spec (2 * r) (Z.pos d)) as [C|C|C];
      destruct (Z.compare_spec (2 * (Z.pos d - r)) (Z.pos d)) as [C'|C'|C'];
      try lia.
    replace (- q - 1)%Z with (- (q + 1))%Z by lia.
    rewrite Z.even_opp, Z.even_add. cbn.
    destruct (Z.even q); cbn; lia.
Qed.

(** [round] commutes with the opposite. *)
Lemma round_opp (x : Q) (nd : nat) : round (- x) nd == - round x nd.
Proof.
  unfold round. rewrite !Qred_correct.
  destruct (scale_pos nd) as (s & Es). rewrite Es.
  assert (E : round_half_even (- x * inject_Z (Z.pos s))
              = (- round_half_even (x * inject_Z (Z.pos s)))%Z).
  { rewrite <- round_half_even_opp. f_equal. destruct x as [n d].
    unfold Qmult, Qopp. cbn [Qnum Qden inject_Z]. now rewrite Z.mul_opp_l. }
  rewrite E.
  set (k := round_half_even (x * inject_Z (Z.pos s))).
  change (inject_Z (- k) / inject_Z (Z.pos s)) with (- k * 1 # 1 * s).
  change (inject_Z k / inject_Z (Z.pos s)) with (k * 1 # 1 * s).
  unfold Qeq, Qopp. cbn [Qnum Qden]. lia.
Qed.

End RoundFacts.

Import RoundFacts.

(** ** The stored reviews *)



Section WithFloat.

Variable float_of_str : str -> option pyfloat.




End WithFloat.



(** ** Ranges of the reported numbers *)

Lemma stored_within (rev : review_result) :
  well_scored rev ->
  within (-1) 1 (polarity rev)
  /\ within 0 1 (subjectivity rev)
  /\ Qabs (polarity rev) <= subjectivity rev.
Proof.
  intros (Hp & Hs & _). rewrite Hp, Hs.
  destruct (scores_bounds (review_text rev)) as (H0 & H1 & Hlo & Hhi).
  repeat split.
  - apply (round_between _ 3 (-1) 1); unfold inject_Z; lra.
  - apply (round_between _ 3 (-1) 1); unfold inject_Z; lra.
  - apply (round_between _ 3 0 1); unfold inject_Z; lra.
  - apply (round_between _ 3 0 1); unfold inject_Z; lra.
  - apply Qabs_Qle_condition. split; [|now apply round_mono].
    rewrite <- round_opp. now apply round_mono.
Qed.

Lemma report_well_scored float_of_str rows res :
  analyze float_of_str rows = inr res -> Forall well_scored (reviews res).
Proof.
  intros E. destruct (analyze_inr _ _ _ E) as (a & Ea & Eres).
  destruct (loop_total _ _ _ Ea) as (_ & Hw & _).
  destruct (finish_fields a) as (_ & _ & Frev & _).
  rewrite <- Eres in Frev. now rewrite Frev.
Qed.

(** X6. Every stored review has a polarity in [-1, 1] and a subjectivity in
    [0, 1], and the absolute value of its stored polarity is at most its
    stored subjectivity: rounding to three decimals keeps the bounds of the
    scorer. *)
Theorem stored_scores_in_range
    (float_of_str : str -> option pyfloat) (rows : list row) (res : results_t) :
  analyze float_of_str rows = inr res ->
  Forall (fun rev => within (-1) 1 (polarity rev)
                     /\ within 0 1 (subjectivity rev)
                     /\ Qabs (polarity rev) <= subjectivity rev)
         (reviews res).
Proof.
  intros E. eapply Forall_impl; [|exact (report_well_scored _ _ _ E)].
  intros rev. apply stored_within.
Qed.

Lemma stored_scores_in_range_witness :
  analyze float_of_digits four_reviews = inr four_report
  /\ Forall (fun rev => within (-1) 1 (polarity rev)
                        /\ within 0 1 (subjectivity rev)
                        /\ Qabs (polarity rev) <= subjectivity rev)
            (reviews four_report).
Proof.
  split; [vm_compute; reflexivity|].
  apply (stored_scores_in_range float_of_digits four_reviews four_report).
  vm_compute; reflexivity.
Defined.

(** ** Texts without letters *)







(** ** The numbers of the report *)

Lemma labelled_count_bounds l revs :
  (0 <= labelled_count l revs <= len revs)%Z.
Proof.
  pose proof (labels_partition revs) as H.
  pose proof (len_nonneg (filter (fun r => label_eqb (sentiment r) positive) revs)).
  pose proof (len_nonneg (filter (fun r => label_eqb (sentiment r) negative) revs)).
  pose proof (len_nonneg (filter (fun r => label_eqb (sentiment r) neutral) revs)).
  unfold labelled_count in *. destruct l; lia.
Qed.

Lemma truediv_unit (a : Z) (k : BinNums.positive) :
  (0 <= a <= Z.pos k)%Z -> within 0 1 (truediv a (Z.pos k)).
Proof.
  intros H. rewrite truediv_pos. unfold within, Qle. cbn [Qnum Qden]. lia.
Qed.

Lemma truediv_self (k : BinNums.positive) : truediv (Z.pos k) (Z.pos k) == 1.
Proof. rewrite truediv_pos. unfold Qeq. cbn [Qnum Qden]. lia. Qed.

Lemma truediv_zero (k : BinNums.positive) : truediv 0 (Z.pos k) == 0.
Proof. rewrite truediv_pos. reflexivity. Qed.

Lemma round_whole (m : Z) (nd : nat) : round (inject_Z m) nd == inject_Z m.
Proof.
  destruct (round_between (inject_Z m) nd m m) as [H1 H2];
    try apply Qle_refl. now apply Qle_antisym.
Qed.

Lemma round_within (x : Q) (nd : nat) (lo hi : Z) :
  within (inject_Z lo) (inject_Z hi) x ->
  within (inject_Z lo) (inject_Z hi) (round x nd).
Proof. intros [H1 H2]. now apply round_between. Qed.

Lemma percentage_within (count : Z) (k : BinNums.positive) :
  (0 <= count <= Z.pos k)%Z -> within 0 100 (percentage count (Z.pos k)).
Proof.
  intros H. unfold percentage. apply (round_within _ 1 0 100).
  destruct (truediv_unit count k H) as [H1 H2].
  unfold within, inject_Z. split; lra.
Qed.

Lemma finish_averages a :
  (average_polarity (finish a), average_subjectivity (finish a))
  = if (0 <? len (acc_reviews a))%Z
    then (round (fsum (polarities a) / inject_Z (len (polarities a))) 3,
          round (fsum (subjectivities a)
                 / inject_Z (len (subjectivities a))) 3)
    else (0, 0).
Proof.
  unfold finish. destruct (0 <? len (acc_reviews a))%Z; reflexivity.
Qed.

(** The report with its counters read off the stored reviews. *)
Lemma report_numbers float_of_str rows res :
  analyze float_of_str rows = inr res ->
  let revs := reviews res in
  let total := len revs in
  total_reviews res = total
  /\ (forall l, count_of (sentiment_distribution res) l = labelled_count l revs)
  /\ satisfaction_score res
     = (if (0 <? total)%Z
        then round ((truediv (labelled_count positive revs) total
                     - truediv (labelled_count negative revs) total + 1)
                    * 50) 1
        else 0)
  /\ (average_polarity res, average_subjectivity res)
     = (if (0 <? total)%Z
        then (round (fsum (map (fun r => raw_polarity (review_text r)) revs)
                     / inject_Z total) 3,
              round (fsum (map (fun r => raw_subjectivity (review_text r)) revs)
                     / inject_Z total) 3)
        else (0, 0))
  /\ insights res = generate_insights res.
Proof.
  intros E. cbv zeta. destruct (analyze_inr _ _ _ E) as (a & Ea & Eres).
  destruct (loop_total _ _ _ Ea) as (_ & _ & Hd & Hp & Hs & _).
  destruct (finish_fields a) as (Ftot & Fdist & Frev & _ & _ & Fins).
  pose proof (finish_score a) as Fscore.
  pose proof (finish_averages a) as Favg.
  rewrite <- Eres in Ftot, Fdist, Frev, Fins, Fscore, Favg.
  rewrite Ftot, Fdist, Frev, Fscore, Favg, Hp, Hs, !Hd, !len_map.
  repeat split; try reflexivity. exact Hd. exact Fins.
Qed.

Lemma satisfaction_exact_within (pos neg : Z) (k : BinNums.positive) :
  (0 <= pos)%Z -> (0 <= neg)%Z -> (pos + neg <= Z.pos k)%Z ->
  within 0 100
    ((truediv pos (Z.pos k) - truediv neg (Z.pos k) + 1) * 50).
Proof.
  intros Hp Hn Hs.
  destruct (truediv_unit pos k ltac:(lia)) as [P1 P2].
  destruct (truediv_unit neg k ltac:(lia)) as [N1 N2].
  unfold within. split; lra.
Qed.

(** X8. The satisfaction score of every report lies in [0, 100], and so
    does each of the three percentages of its insights. *)
Theorem score_and_percentages_in_range
    (float_of_str : str -> option pyfloat) (rows : list row) (res : results_t) :
  analyze float_of_str rows = inr res ->
  within 0 100 (satisfaction_score res)
  /\ (forall ins, insights res = Some ins ->
        within 0 100 (positive_percentage ins)
        /\ within 0 100 (negative_percentage ins)
        /\ within 0 100 (neutral_percentage ins)).
Proof.
  intros E. destruct (report_numbers _ _ _ E) as (Ht & Hd & Hs & _ & Hi).
  cbv zeta in *.
  pose proof (labelled_count_bounds positive (reviews res)) as Bp.
  pose proof (labelled_count_bounds negative (reviews res)) as Bn.
  pose proof (labelled_count_bounds neutral (reviews res)) as Bu.
  pose proof (labels_partition (reviews res)) as Hsum.
  split.
  - rewrite Hs. destruct (reviews res) as [|x l] eqn:Er.
    + cbn. unfold within. split; discriminate.
    + destruct (len_pos_cons x l) as (k & Hk). rewrite Hk in *.
      cbn [Z.ltb Z.compare]. apply (round_within _ 1 0 100).
      apply satisfaction_exact_within; lia.
  - intros ins Hins. rewrite Hi in Hins. unfold generate_insights in Hins.
    rewrite Ht, !Hd in Hins.
    destruct (reviews res) as [|x l] eqn:Er; [cbn in Hins; discriminate Hins|].
    destruct (len_pos_cons x l) as (k & Hk). rewrite Hk in *.
    change (Z.pos k =? 0)%Z with false in Hins. cbv beta iota zeta in Hins.
    injection Hins as Hins. subst ins.
    cbn [positive_percentage negative_percentage neutral_percentage].
    repeat split; apply percentage_within; lia.
Qed.

Lemma score_and_percentages_in_range_witness :
  analyze float_of_digits four_reviews = inr four_report
  /\ within 0 100 (satisfaction_score four_report).
Proof.
  split; [vm_compute; reflexivity|].
  apply (score_and_percentages_in_range float_of_digits four_reviews four_report).
  vm_compute; reflexivity.
Defined.



(** ** The trend and the counts *)

Lemma trend_of_high (score : Q) : 70 <= score -> trend_of score = HighlyPositive.
Proof.
  intros H. unfold trend_of. apply Qle_bool_iff in H. now rewrite H.
Qed.

Lemma trend_of_half (score : Q) :
  50 <= score ->
  trend_of score = HighlyPositive \/ trend_of score = ModeratelyPositive.
Proof.
  intros H. unfold trend_of. apply Qle_bool_iff in H. rewrite H.
  destruct (Qle_bool 70 score); [now left | now right].
Qed.

Lemma trend_of_low (score : Q) : score < 30 -> trend_of score = Negative.
Proof.
  intros H. unfold trend_of.
  assert (N : forall b : Q, 30 <= b -> Qle_bool b score = false).
  { intros b Hb. destruct (Qle_bool b score) eqn:E; [|reflexivity].
    apply Qle_bool_iff in E. exfalso. lra. }
  rewrite (N 70), (N 50), (N 30); [reflexivity| |discriminate|discriminate].
  apply Qle_refl.
Qed.

(** X10. In a report with at least one review: when the reviews labelled
    positive are at least as many as those labelled negative, the score is
    at least 50 and the trend is HighlyPositive or ModeratelyPositive; when
    every review is positive the score is 100 and the trend HighlyPositive;
    when every review is negative the score is 0 and the trend Negative. *)
Theorem trend_follows_counts
    (float_of_str : str -> option pyfloat) (rows : list row) (res : results_t) :
  analyze float_of_str rows = inr res ->
  (0 < total_reviews res)%Z ->
  let pos := labelled_count positive (reviews res) in
  let neg := labelled_count negative (reviews res) in
  exists ins,
    insights res = Some ins
    /\ ((neg <= pos)%Z ->
        50 <= satisfaction_score res
        /\ (overall_trend ins = HighlyPositive
            \/ overall_trend ins = ModeratelyPositive))
    /\ (pos = total_reviews res ->
        satisfaction_score res == 100 /\ overall_trend ins = HighlyPositive)
    /\ (neg = total_reviews res ->
        satisfaction_score res == 0 /\ overall_trend ins = Negative).
Proof.
  intros E Hpos. cbv zeta.
  destruct (report_numbers _ _ _ E) as (Ht & Hd & Hs & _ & Hi).
  cbv zeta in *.
  pose proof (labelled_count_bounds positive (reviews res)) as Bp.
  pose proof (labelled_count_bounds negative (reviews res)) as Bn.
  pose proof (labelled_count_bounds neutral (reviews res)) as Bu.
  pose proof (labels_partition (reviews res)) as Hsum.
  rewrite Hi. unfold generate_insights. rewrite Ht in *.
  destruct (reviews res) as [|x l] eqn:Er; [cbn in Hpos; lia|].
  destruct (len_pos_cons x l) as (k & Hk). rewrite Hk in *.
  change (Z.pos k =? 0)%Z with false. cbv beta iota zeta.
  eexists. split; [reflexivity|]. cbn [overall_trend].
  change (0 <? Z.pos k)%Z with true in Hs. cbv iota in Hs.
  set (p := labelled_count positive (x :: l)) in *.
  set (n := labelled_count negative (x :: l)) in *.
  destruct (truediv_unit p k ltac:(lia)) as [P1 P2].
  destruct (truediv_unit n k ltac:(lia)) as [N1 N2].
  split; [|split].
  - intros Hle.
    assert (H50 : 50 <= satisfaction_score res).
    { rewrite Hs. apply (round_between _ 1 50 100); unfold inject_Z; [|lra].
      assert (truediv n (Z.pos k) <= truediv p (Z.pos k)).
      { rewrite !truediv_pos. unfold Qle. cbn [Qnum Qden]. nia. }
      lra. }
    split; [exact H50 | now apply trend_of_half].
  - intros Ep.
    assert (En : n = 0%Z) by lia.
    assert (H100 : satisfaction_score res == 100).
    { rewrite Hs, Ep, En.
      pose proof (truediv_self k) as Hself. pose proof (truediv_zero k) as Hz.
      apply Qle_antisym; apply (round_between _ 1 100 100);
        unfold inject_Z; lra. }
    split; [exact H100|]. apply trend_of_high. rewrite H100. discriminate.
  - intros En.
    assert (Ep : p = 0%Z) by lia.
    assert (H0 : satisfaction_score res == 0).
    { rewrite Hs, Ep, En.
      pose proof (truediv_self k) as Hself. pose proof (truediv_zero k) as Hz.
      apply Qle_antisym; apply (round_between _ 1 0 0);
        unfold inject_Z; lra. }
    split; [exact H0|]. apply trend_of_low. rewrite H0. reflexivity.
Qed.

Lemma trend_follows_counts_witness :
  analyze float_of_digits four_reviews = inr four_report
  /\ (0 < total_reviews four_report)%Z
  /\ exists ins,
       insights four_report = Some ins
       /\ ((labelled_count negative (reviews four_report)
            <= labelled_count positive (reviews four_report))%Z ->
           50 <= satisfaction_score four_report
           /\ (overall_trend ins = HighlyPositive
               \/ overall_trend ins = ModeratelyPositive))
       /\ (labelled_count positive (reviews four_report)
           = total_reviews four_report ->
           satisfaction_score four_report == 100
           /\ overall_trend ins = HighlyPositive)
       /\ (labelled_count negative (reviews four_report)
           = total_reviews four_report ->
           satisfaction_score four_report == 0
           /\ overall_trend ins = Negative).
Proof.
  split; [vm_compute; reflexivity|]. split; [reflexivity|].
  apply (trend_follows_counts float_of_digits four_reviews four_report);
    vm_compute; reflexivity.
Defined.

(** ** The insights *)

Lemma first_max_greatest {A : Type} (key : A -> Q) (l : list A) (m x : A) :
  first_max key l m -> In x l -> key x <= key m.
Proof.
  intros (front & rest & -> & Hf & Hr) Hx.
  rewrite Forall_forall in Hf, Hr.
  apply in_app_or in Hx as [Hx|[<-|Hx]].
  - apply Qlt_le_weak. now apply Hf.
  - apply Qle_refl.
  - now apply Hr.
Qed.

Lemma first_min_In {A : Type} (key : A -> Q) (l : list A) (m : A) :
  first_min key l m -> In m l.
Proof. intros (front & rest & -> & _). apply in_or_app. right. now left. Qed.

Lemma snapshot_text_length (r : review_result) :
  length (text (snapshot_of r)) = (Nat.min 100 (length (review_text r)) + 3)%nat.
Proof.
  unfold snapshot_of, prefix, ellipsis. cbn [text].
  now rewrite length_app, length_firstn.
Qed.

(** X11. The insights are empty exactly when no row has a non-blank text.
    Otherwise both snapshots are there, the polarity of the most negative
    review is at most that of the most positive one, and the text of a
    snapshot has at most 103 characters and ends with "...". *)
Theorem insights_presence
    (float_of_str : str -> option pyfloat) (rows : list row) (res : results_t) :
  analyze float_of_str rows = inr res ->
  (insights res = None <-> retained rows = [])
  /\ (forall ins, insights res = Some ins ->
        exists top bottom,
          most_positive_review ins = Some top
          /\ most_negative_review ins = Some bottom
          /\ snapshot_polarity bottom <= snapshot_polarity top
          /\ (length (text top) <= 103)%nat
          /\ (length (text bottom) <= 103)%nat
          /\ (exists s, text top = s ++ lit "...")
          /\ (exists s, text bottom = s ++ lit "...")).
Proof.
  intros E.
  destruct (report_covers _ _ _ E) as (Ht & _).
  destruct (report_numbers _ _ _ E) as (_ & _ & _ & _ & Hi).
  split.
  - rewrite Hi. unfold generate_insights. rewrite Ht.
    destruct (retained rows) as [|r rs]; [cbn; tauto|].
    destruct (len_pos_cons r rs) as (k & ->).
    change (Z.pos k =? 0)%Z with false. cbv beta iota zeta.
    split; discriminate.
  - intros ins Hins.
    assert (Hpos : (0 < total_reviews res)%Z).
    { rewrite Hi in Hins. unfold generate_insights in Hins.
      pose proof (len_nonneg (retained rows)) as Hge. rewrite <- Ht in Hge.
      destruct (total_reviews res =? 0)%Z eqn:Ez; [discriminate Hins|].
      apply Z.eqb_neq in Ez. lia. }
    destruct (insights_extremal _ _ _ E Hpos)
      as (ins' & top & bottom & Ei & Hmax & Hmin & Etop & Ebot & _).
    assert (ins' = ins) by congruence. subst ins'.
    exists (snapshot_of top), (snapshot_of bottom).
    split; [exact Etop|]. split; [exact Ebot|].
    split; [|split; [|split; [|split]]].
    + cbn [snapshot_of snapshot_polarity].
      eapply first_max_greatest; [exact Hmax|].
      eapply first_min_In; eauto.
    + rewrite snapshot_text_length. lia.
    + rewrite snapshot_text_length. lia.
    + now exists (prefix 100 (review_text top)).
    + now exists (prefix 100 (review_text bottom)).
Qed.

Lemma insights_presence_witness :
  analyze float_of_digits four_reviews = inr four_report
  /\ (insights four_report = None <-> retained four_reviews = []).
Proof.
  split; [vm_compute; reflexivity|].
  apply (insights_presence float_of_digits four_reviews four_report).
  vm_compute; reflexivity.
Defined.

(** ** The console and the first failure *)

Lemma len_filter_split {A : Type} (f : A -> bool) (l : list A) :
  (len (filter f l) + len (filter (fun x => negb (f x)) l) = len l)%Z.
Proof.
  induction l as [|x l IH]; [reflexivity|]. cbn [filter].
  destruct (f x); cbn [negb]; rewrite !len_cons; lia.
Qed.

(** X12. The console line "Processing n reviews" counts every row that was
    read, blank texts included, also when the run fails later, whereas
    [total_reviews] of a returned report counts the rows with a non-blank
    text: the two differ by the number of blank rows. *)
Theorem processing_counts_all_rows
    (float_of_str : str -> option pyfloat) (rows : list row) :
  (exists rest,
     console (analyze_reviews float_of_str (inr rows))
     = Starting :: Processing (len rows) :: rest)
  /\ (forall res,
        returned (analyze_reviews float_of_str (inr rows)) = Some res ->
        (total_reviews res + len (filter is_blank rows) = len rows)%Z).
Proof.
  cbn [analyze_reviews]. split.
  - destruct (analyze float_of_str rows) as [e|res].
    + destruct e; cbn; eexists; reflexivity.
    + cbn. eexists; reflexivity.
  - intros res. destruct (analyze float_of_str rows) as [e|res'] eqn:E.
    + destruct e; discriminate.
    + cbn [returned]. intros H. injection H as <-.
      destruct (report_covers _ _ _ E) as (Ht & _). rewrite Ht.
      unfold retained. pose proof (len_filter_split is_blank rows). lia.
Qed.

Section WithFloat.

Variable float_of_str : str -> option pyfloat.

Lemma first_error_app good rest :
  first_error float_of_str good = None ->
  first_error float_of_str (good ++ rest) = first_error float_of_str rest.
Proof.
  induction good as [|r good IH]; [reflexivity|]. cbn [first_error app].
  destruct (row_error float_of_str r); [discriminate | exact IH].
Qed.

Lemma analyze_first_error rows e :
  first_error float_of_str rows = Some e -> analyze float_of_str rows = inl e.
Proof.
  rewrite (loop_first_error float_of_str rows acc0). unfold analyze.
  destruct (loop float_of_str acc0 rows); congruence.
Qed.

End WithFloat.

(** X13. The first row that raises decides the run: when the rows before it
    raise nothing, the run shows the line for its exception, writes nothing
    and returns [None], whatever rows follow it, valid or not. *)
Theorem first_failure_decides
    (float_of_str : str -> option pyfloat)
    (good : list row) (bad : row) (rest : list row) (e : exn) :
  first_error float_of_str good = None ->
  row_error float_of_str bad = Some e ->
  analyze_reviews float_of_str (inr (good ++ bad :: rest))
  = {| console := [ Starting; Processing (len (good ++ bad :: rest));
                    report_of e ];
       written := [];
       returned := None |}.
Proof.
  intros Hg Hb. cbn [analyze_reviews].
  rewrite (analyze_first_error float_of_str (good ++ bad :: rest) e).
  - destruct e; reflexivity.
  - rewrite first_error_app by exact Hg. cbn [first_error]. now rewrite Hb.
Qed.

Lemma first_failure_decides_witness :
  first_error float_of_digits [ review "R1" "Great sound" "5" ] = None
  /\ row_error float_of_digits (review "R2" "Bad cable" "five")
     = Some (ValueError (lit "five"))
  /\ analyze_reviews float_of_digits
       (inr ([ review "R1" "Great sound" "5" ]
             ++ review "R2" "Bad cable" "five"
             :: [ review "R3" "Nice" "4" ]))
     = {| console := [ Starting; Processing 3;
                       ErrorDuringAnalysis (ValueError (lit "five")) ];
          written := [];
          returned := None |}.
Proof.
  split; [vm_compute; reflexivity|]. split; [vm_compute; reflexivity|].
  apply (first_failure_decides float_of_digits
           [ review "R1" "Great sound" "5" ]
           (review "R2" "Bad cable" "five")
           [ review "R3" "Nice" "4" ]
           (ValueError (lit "five"))); vm_compute; reflexivity.
Defined.

(** ** Runs over two stretches of rows *)

Module ComposeFacts.

Lemma add_distribution_zero d :
  add_distribution d {| n_positive := 0; n_negative := 0; n_neutral := 0 |} = d.
Proof.
  destruct d. unfold add_distribution. cbn. now rewrite !Z.add_0_r.
Qed.

Lemma add_distribution_assoc d1 d2 d3 :
  add_distribution d1 (add_distribution d2 d3)
  = add_distribution (add_distribution d1 d2) d3.
Proof. unfold add_distribution. cbn. now rewrite !Z.add_assoc. Qed.

Lemma add_distribution_bump d s :
  add_distribution d
    (bump {| n_positive := 0; n_negative := 0; n_neutral := 0 |} s)
  = bump d s.
Proof.
  destruct d, s; unfold add_distribution, bump; cbn;
    now rewrite ?Z.add_0_r.
Qed.

Lemma merge_acc0 a : merge a acc0 = a.
Proof.
  destruct a. unfold merge, acc0. cbn.
  now rewrite !app_nil_r, add_distribution_zero.
Qed.

Lemma merge_assoc a b c : merge a (merge b c) = merge (merge a b) c.
Proof.
  unfold merge. cbn. now rewrite !app_assoc, add_distribution_assoc.
Qed.

Section WithFloat.

Variable float_of_str : str -> option pyfloat.

Lemma step_shift a r :
  step float_of_str a r
  = match step float_of_str acc0 r with
    | inl e => inl e
    | inr b => inr (merge a b)
    end.
Proof.
  unfold Run.step. destruct (get (Review_Text r) []) as [t|]; [|reflexivity].
  destruct (negb (truthy (strip t))); [now rewrite merge_acc0|].
  destruct (calculate_sentiment t) as [[pol sub] lab].
  destruct (rating_of float_of_str (Rating r)) as [e|stars]; [reflexivity|].
  unfold merge, acc0. cbn. now rewrite add_distribution_bump.
Qed.

(** The loop adds to its accumulators what it would build from nothing. *)
Lemma loop_shift rows : forall a,
  loop float_of_str a rows
  = match loop float_of_str acc0 rows with
    | inl e => inl e
    | inr b => inr (merge a b)
    end.
Proof.
  induction rows as [|r rows IH]; intros a; cbn [Run.loop].
  - now rewrite merge_acc0.
  - rewrite (step_shift a r).
    destruct (step float_of_str acc0 r) as [e|b]; [reflexivity|].
    rewrite (IH (merge a b)), (IH b).
    destruct (loop float_of_str acc0 rows) as [e|c]; [reflexivity|].
    now rewrite merge_assoc.
Qed.

Lemma loop_app rows1 rows2 : forall a,
  loop float_of_str a (rows1 ++ rows2)
  = match loop float_of_str a rows1 with
    | inl e => inl e
    | inr a1 => loop float_of_str a1 rows2
    end.
Proof.
  induction rows1 as [|r rows1 IH]; intros a; cbn [Run.loop app];
    [reflexivity|].
  destruct (step float_of_str a r); [reflexivity | apply IH].
Qed.

Lemma analyze_loop rows :
  analyze float_of_str rows
  = match loop float_of_str acc0 rows with
    | inl e => inl e
    | inr a => inr (finish a)
    end.
Proof. reflexivity. Qed.

End WithFloat.

Lemma count_of_add d1 d2 l :
  count_of (add_distribution d1 d2) l = (count_of d1 l + count_of d2 l)%Z.
Proof. destruct l; reflexivity. Qed.

End ComposeFacts.

Import ComposeFacts.

(** X14. A run over two stretches of rows, one after the other: it fails
    with the exception of the first stretch when that one fails, otherwise
    with the exception of the second when that one fails; when both
    succeed it succeeds, its reviews are those of the first report followed
    by those of the second, and [total_reviews] and each count of the
    distribution are the sums of the two reports'. *)
Theorem analyze_app
    (float_of_str : str -> option pyfloat) (rows1 rows2 : list row) :
  match analyze float_of_str rows1, analyze float_of_str rows2 with
  | inl e, _ => analyze float_of_str (rows1 ++ rows2) = inl e
  | inr _, inl e => analyze float_of_str (rows1 ++ rows2) = inl e
  | inr r1, inr r2 =>
      exists r,
        analyze float_of_str (rows1 ++ rows2) = inr r
        /\ reviews r = reviews r1 ++ reviews r2
        /\ total_reviews r = (total_reviews r1 + total_reviews r2)%Z
        /\ (forall l,
              count_of (sentiment_distribution r) l
              = (count_of (sentiment_distribution r1) l
                 + count_of (sentiment_distribution r2) l)%Z)
  end.
Proof.
  rewrite !analyze_loop, loop_app.
  destruct (loop float_of_str acc0 rows1) as [e1|a1]; [reflexivity|].
  rewrite (loop_shift float_of_str rows2 a1).
  destruct (loop float_of_str acc0 rows2) as [e2|a2]; [reflexivity|].
  exists (finish (merge a1 a2)). split; [reflexivity|].
  destruct (finish_fields (merge a1 a2)) as (Ft & Fd & Fr & _).
  destruct (finish_fields a1) as (Ft1 & Fd1 & Fr1 & _).
  destruct (finish_fields a2) as (Ft2 & Fd2 & Fr2 & _).
  rewrite Ft, Fd, Fr, Ft1, Fd1, Fr1, Ft2, Fd2, Fr2.
  cbn [merge acc_reviews acc_distribution].
  split; [reflexivity|]. split; [apply len_app|].
  intros l. apply count_of_add.
Qed.

(** ** The words of the frequency table *)

Lemma sum_cons (x : Z) (l : list Z) : sum (x :: l) = (x + sum l)%Z.
Proof. unfold sum at 1. cbn [fold_left]. rewrite sum_from. lia. Qed.

Lemma sum_perm (l l' : list Z) : Permutation l l' -> sum l = sum l'.
Proof.
  induction 1 as [|x l l' _ IH|x y l|l l' l'' _ IH1 _ IH2].
  - reflexivity.
  - rewrite !sum_cons. lia.
  - rewrite !sum_cons. lia.
  - congruence.
Qed.

Lemma sum_counts_add w c :
  sum (map snd (Counter.add w c)) = (sum (map snd c) + 1)%Z.
Proof.
  induction c as [|[k n] c IH]; cbn [Counter.add map snd].
  - reflexivity.
  - destruct (Str.eqb k w); cbn [map snd]; rewrite !sum_cons; [lia|].
    rewrite IH. lia.
Qed.

Lemma sum_counts_fold ws : forall c,
  sum (map snd (fold_left (fun c w => Counter.add w c) ws c))
  = (sum (map snd c) + len ws)%Z.
Proof.
  induction ws as [|w ws IH]; intros c; cbn [fold_left].
  - cbn. lia.
  - rewrite IH, sum_counts_add, len_cons. lia.
Qed.

Lemma sum_firstn (n : nat) (l : list Z) :
  Forall (fun x => (0 <= x)%Z) l -> (sum (firstn n l) <= sum l)%Z.
Proof.
  intros H. revert n. induction H as [|x l Hx _ IH]; intros [|n];
    cbn [firstn]; rewrite ?sum_cons; try (cbn; lia).
  - assert (0 <= sum l)%Z by (specialize (IH 0%nat); cbn in IH; exact IH).
    cbn. lia.
  - specialize (IH n). lia.
Qed.

Lemma occurrences_pos w ws : In w ws -> (1 <= occurrences w ws)%Z.
Proof.
  intros H. unfold occurrences.
  assert (Hin : In w (filter (Str.eqb w) ws))
    by (apply filter_In; split; [exact H | apply eqb_refl]).
  destruct (filter (Str.eqb w) ws); [contradiction|].
  rewrite len_cons. pose proof (len_nonneg l). lia.
Qed.

(** X15. In the word analysis, [total_unique_words] is the number of
    distinct qualifying words; every listed count is at least 1; the
    listed counts add up to at most the number of qualifying words, and to
    exactly that number when there are at most 10 distinct ones. *)
Theorem word_counts_add_up
    (float_of_str : str -> option pyfloat) (rows : list row) (res : results_t) :
  analyze float_of_str rows = inr res ->
  let ws := qualifying_words rows in
  let listed := most_common (word_analysis res) in
  total_unique_words (word_analysis res) = len (distinct ws)
  /\ Forall (fun e => (1 <= snd e)%Z) listed
  /\ (sum (map snd listed) <= len ws)%Z
  /\ ((length (distinct ws) <= 10)%nat -> sum (map snd listed) = len ws).
Proof.
  intros E. cbv zeta. rewrite (report_words _ _ _ E).
  destruct (analyze_inr _ _ _ E) as (a & Ea & Eres).
  destruct (loop_total _ _ _ Ea) as (_ & _ & _ & _ & _ & Hw).
  destruct (finish_fields a) as (_ & _ & _ & _ & Fu & _).
  rewrite <- Eres in Fu. rewrite Fu, Hw. clear Fu.
  set (ws := qualifying_words rows).
  destruct (Counter_ranked ws) as (Hperm & _ & _ & Hin & _ & Hlen).
  set (ranked := Counter.sorted_desc (Counter.Counter ws)) in *.
  assert (Hsum : sum (map snd ranked) = len ws).
  { rewrite (sum_perm _ _ (Permutation_map snd Hperm)).
    unfold Counter.Counter. rewrite sum_counts_fold. cbn. lia. }
  assert (Hone : Forall (fun e => (1 <= snd e)%Z) ranked).
  { apply Forall_forall. intros e He. destruct (Hin e He) as [Hi ->].
    now apply occurrences_pos. }
  split; [|split; [|split]].
  - unfold len. now rewrite <- Hlen, (Permutation_length Hperm).
  - apply Forall_forall. intros e He. rewrite Forall_forall in Hone.
    apply Hone. rewrite <- (firstn_skipn 10 ranked).
    apply in_or_app. now left.
  - rewrite <- Hsum, <- firstn_map. apply sum_firstn.
    apply Forall_forall. intros x Hx. apply in_map_iff in Hx as (e & <- & He).
    rewrite Forall_forall in Hone. specialize (Hone e He). lia.
  - intros Hd. rewrite <- Hlen in Hd. now rewrite firstn_all2.
Qed.

Lemma word_counts_add_up_witness :
  analyze float_of_digits four_reviews = inr four_report
  /\ total_unique_words (word_analysis four_report) = 11%Z
  /\ total_unique_words (word_analysis four_report)
     = len (distinct (qualifying_words four_reviews)).
Proof.
  split; [vm_compute; reflexivity|]. split; [vm_compute; reflexivity|].
  apply (word_counts_add_up float_of_digits four_reviews four_report).
  vm_compute; reflexivity.
Defined.

(** ** Labels and stored polarities *)

Lemma label_of_labelled (t : str) : labelled (raw_polarity t) (label_of t).
Proof.
  unfold raw_polarity, label_of. rewrite scorer_unfold.
  destruct (tokens t); cbv zeta; cbn [fst snd]; apply labelled_thresholds.
Qed.

Lemma round_tenth : round (1 # 10) 3 = 1 # 10 /\ round (- (1 # 10)) 3 = - (1 # 10).
Proof. split; vm_compute; reflexivity. Qed.

(** X16. The label of a stored review is decided on the polarity before
    rounding, and the stored polarity never contradicts it beyond the
    threshold itself: a positive review has a stored polarity of at least
    0.1, a negative one of at most -0.1, a neutral one between -0.1 and
    0.1. *)
Theorem stored_label_fits_polarity
    (float_of_str : str -> option pyfloat) (rows : list row) (res : results_t) :
  analyze float_of_str rows = inr res ->
  Forall (fun rev =>
            labelled (raw_polarity (review_text rev)) (sentiment rev)
            /\ polarity_fits (sentiment rev) (polarity rev))
         (reviews res).
Proof.
  intros E. eapply Forall_impl; [|exact (report_well_scored _ _ _ E)].
  intros rev (Hp & _ & Hl). rewrite Hl, Hp.
  pose proof (label_of_labelled (review_text rev)) as Hlab.
  split; [exact Hlab|].
  destruct Hlab as (Lpos & Lneg & Lneu). destruct round_tenth as [R1 R2].
  destruct (label_of (review_text rev)); cbn [polarity_fits].
  - rewrite <- R1. apply round_mono, Qlt_le_weak. now apply Lpos.
  - rewrite <- R2. apply round_mono, Qlt_le_weak. now apply Lneg.
  - destruct Lneu as [Lneu _]. destruct (Lneu eq_refl) as [H1 H2].
    split; [rewrite <- R2 | rewrite <- R1]; now apply round_mono.
Qed.

Lemma stored_label_fits_polarity_witness :
  analyze float_of_digits [ plain "B" (good_items 21 188) ]
  = inr (report_or_empty [ plain "B" (good_items 21 188) ])
  /\ map (fun rev => (sentiment rev, polarity rev))
         (reviews (report_or_empty [ plain "B" (good_items 21 188) ]))
     = [ (positive, 1 # 10) ]
  /\ Forall (fun rev =>
               labelled (raw_polarity (review_text rev)) (sentiment rev)
               /\ polarity_fits (sentiment rev) (polarity rev))
            (reviews (report_or_empty [ plain "B" (good_items 21 188) ])).
Proof.
  split; [vm_compute; reflexivity|]. split; [vm_compute; reflexivity|].
  apply (stored_label_fits_polarity float_of_digits
           [ plain "B" (good_items 21 188) ]).
  vm_compute; reflexivity.
Defined.

(** ** The length of a cleaned text *)

Lemma flat_split_length (s : str) :
  (length (flat (split s))
   <= length s + match s with
                 | c :: _ => if isspace c then 0 else 1
                 | [] => 0
                 end)%nat.
Proof.
  induction s as [|c s IH]; [cbn; lia|].
  cbn [split]. destruct (isspace c) eqn:Hc.
  - cbn [length]. destruct s as [|d s']; [cbn in *; lia|].
    destruct (isspace d); lia.
  - destruct s as [|d s']; [cbn; lia|].
    destruct (isspace d) eqn:Hd.
    + change (flat ([c] :: split (d :: s')))
        with (space :: c :: flat (split (d :: s'))).
      cbn [length] in *. lia.
    + destruct (split_nonspace_head d s' Hd) as (w & ws & Ew).
      rewrite Ew in *.
      change (flat ((c :: d :: w) :: ws)) with (space :: c :: d :: w ++ flat ws).
      change (flat ((d :: w) :: ws)) with (space :: d :: w ++ flat ws) in IH.
      cbn [length] in *. lia.
Qed.

Lemma join_split_length (s : str) :
  (length (join [space] (split s)) <= length s)%nat.
Proof.
  pose proof (flat_split_length s) as H.
  destruct (split s) as [|w ws] eqn:E; [cbn; lia|].
  rewrite join_flat.
  change (flat (w :: ws)) with (space :: w ++ flat ws) in H.
  cbn [length] in H. destruct s as [|c s']; [discriminate E|].
  destruct (isspace c); lia.
Qed.

(** X17. Cleaning never lengthens a text, and a text and its cleaned form
    have the same tokens. *)
Theorem clean_text_shrinks (t : str) :
  (length (clean_text (Some t)) <= length t)%nat
  /\ split (clean_text (Some t)) = split (strip_special (lower t)).
Proof.
  split.
  - rewrite clean_text_some.
    eapply Nat.le_trans; [apply join_split_length|].
    unfold strip_special, lower.
    eapply Nat.le_trans; [apply filter_length_le|]. now rewrite length_map.
  - apply tokens_eq.
Qed.
